(** * extract_pgsql_models_ext: schema-to-model translation

    A shallow embedding of [extract_pgsql_models_ext.py]: the rule-based
    filter ([is_filter_match], [get_generateInfo]), the constraint
    resolver ([primarykeys], [is_unique], [references]), the type and
    default mapper ([define_field]) and the emitter ([define_table]).

    Python objects that are mutated or shared (the [definitions] mapping of
    a [FieldGenerateInfo], the dictionary built by [define_field]) live in
    an explicit store; exceptions are an error result; the catalog
    connection is a record holding, for every SQL statement of the script,
    the rows it answers. *)

From Stdlib Require Import ZArith Lia Ascii String.
From stdpp Require Import base option list strings gmap pretty.

Local Open Scope string_scope.
Local Open Scope Z_scope.
Local Open Scope list_scope.

(** ** Python values *)

(** The dynamically typed values found in catalog rows and in field
    specifications: [None], booleans, integers and strings. All of them are
    immutable, so copying a mapping of them deeply or shallowly is the
    same. *)
Inductive pyval : Type :=
| PyNone
| PyBool (b : bool)
| PyInt (n : Z)
| PyStr (s : string).

(** Python truth value: [None], [False], [0] and [''] are false. *)
Definition truthy (v : pyval) : bool :=
  match v with
  | PyNone => false
  | PyBool b => b
  | PyInt n => negb (n =? 0)
  | PyStr "" => false
  | PyStr _ => true
  end.

(** [str(v)], also what ["%s" % v] and ['{}'.format(v)] print. *)
Definition py_str (v : pyval) : string :=
  match v with
  | PyNone => "None"
  | PyBool true => "True"
  | PyBool false => "False"
  | PyInt n => pretty n
  | PyStr s => s
  end.

(** [a or b]. *)
Definition py_or (a b : pyval) : pyval := if truthy a then a else b.

(** [x in xs] for a tuple or list of strings. *)
Definition py_in (x : string) (xs : list string) : bool :=
  existsb (String.eqb x) xs.

(** [sep.join(xs)]. *)
Fixpoint join (sep : string) (xs : list string) : string :=
  match xs with
  | [] => ""
  | [x] => x
  | x :: rest => x +:+ sep +:+ join sep rest
  end.

(** [xs[i]] with Python's negative indices; [None] stands for
    [IndexError]. *)
Definition py_index {A} (xs : list A) (i : Z) : option A :=
  let n := Z.of_nat (length xs) in
  if (0 <=? i) && (i <? n) then xs !! Z.to_nat i
  else if (- n <=? i) && (i <? 0) then xs !! Z.to_nat (i + n)
  else None.

(** A field specification, the [dict] built by [define_field]. *)
Abbreviation fdict := (gmap string pyval).

(** ** Catalog rows *)

(** Row of the [information_schema.tables] statement of [get_tables]. *)
Record table_row := {
  tr_table_schema : string;
  tr_table_name : string
}.

(** Row of the [information_schema.columns] statement of [get_fields]. *)
Record column_row := {
  cr_table_schema : string;
  cr_table_name : string;
  cr_column_name : string;
  cr_data_type : string;
  cr_is_nullable : pyval;
  cr_character_maximum_length : pyval;
  cr_numeric_precision : pyval;
  cr_numeric_scale : pyval;
  cr_column_default : option string
}.

(** Row of the first statement of [references] (the referencing side). *)
Record key_row := {
  kr_table_name : string;
  kr_column_name : string;
  kr_constraint_name : string;
  kr_constraint_schema : string;
  kr_update_rule : string;
  kr_delete_rule : string;
  kr_ordinal_position : Z
}.

(** Row of the second statement of [references] (the referenced side). *)
Record usage_row := {
  ur_table_schema : string;
  ur_table_name : string;
  ur_column_name : string
}.

(** ** Exceptions *)

(** Classes of the exceptions [eval] may raise. [UnicodeError] derives
    from [ValueError] and [IndentationError] from [SyntaxError];
    [SystemExit] and [KeyboardInterrupt] do not derive from [Exception]. *)
Inductive exception_class : Type :=
| ValueError | UnicodeError | SyntaxError | IndentationError
| NameError | TypeError | ZeroDivisionError | OverflowError
| SystemExit | KeyboardInterrupt.

(** [isinstance(e, (ValueError, SyntaxError))]. *)
Definition is_ValueError_or_SyntaxError (e : exception_class) : bool :=
  match e with
  | ValueError | UnicodeError | SyntaxError | IndentationError => true
  | _ => false
  end.

(** [isinstance(e, Exception)]. *)
Definition is_Exception (e : exception_class) : bool :=
  match e with
  | SystemExit | KeyboardInterrupt => false
  | _ => true
  end.

(** What aborts a run. The four [RuntimeError]s of the script carry the
    values their message is formatted from. [InvalidReference] is the read
    of a location that was never allocated, which no run reaches;
    [Uncaught] is an exception of [eval] that no handler takes. *)
Inductive error : Type :=
| DataTypeNotSupported (schema table name data_type : string)
| DefaultUnsupported (column_default : string)
| UnsupportedForeignKeyReference (rows2 : list usage_row)
| UnsupportedReferentialConstraint (rows1 : list key_row)
| IndexError
| AttributeError
| KeyError (key : string)
| InvalidReference
| Uncaught (e : exception_class).

Inductive result (A : Type) : Type :=
| Ok (a : A)
| Err (e : error).
Arguments Ok {A} a.
Arguments Err {A} e.

Definition is_ok {A} (r : result A) : bool :=
  match r with Ok _ => true | Err _ => false end.

(** ** Regular expressions: [re.match] *)

(** The part of the [re] syntax the rule list is written in: literal
    characters, [.] and a postfix [*] on one of them. *)
Module Re.

Inductive atom : Type :=
| Lit (c : ascii)
| AnyChar.

(** An atom, and whether it is starred. *)
Definition item : Type := atom * bool.

(** [.] does not match a newline. *)
Definition atom_ok (a : atom) (c : ascii) : bool :=
  match a with
  | Lit c' => Ascii.eqb c' c
  | AnyChar => negb (Ascii.eqb c "010"%char)
  end.

Definition is_meta (c : ascii) : bool :=
  existsb (Ascii.eqb c)
    ["^"; "$"; "*"; "+"; "?"; "{"; "}"; "["; "]"; "092"; "|"; "("; ")"]%char.

Definition atom_of (c : ascii) : atom :=
  if Ascii.eqb c "."%char then AnyChar else Lit c.

(** Compile a pattern of the fragment; [None] outside of it. *)
Fixpoint parse (p : string) : option (list item) :=
  match p with
  | EmptyString => Some []
  | String c rest =>
      if is_meta c then None
      else match rest with
           | String "*"%char rest' =>
               match parse rest' with
               | Some items => Some ((atom_of c, true) :: items)
               | None => None
               end
           | _ =>
               match parse rest with
               | Some items => Some ((atom_of c, false) :: items)
               | None => None
               end
           end
  end.

(** The backtracking matcher, started at the first character of the
    subject. It succeeds as soon as the pattern is used up: what is left
    of the subject is not looked at. *)
Fixpoint match_items (items : list item) (s : string) : bool :=
  match items with
  | [] => true
  | (a, false) :: rest =>
      match s with
      | String c s' => atom_ok a c && match_items rest s'
      | EmptyString => false
      end
  | (a, true) :: rest =>
      (fix star (s : string) : bool :=
         match s with
         | String c s' => (atom_ok a c && star s') || match_items rest s
         | EmptyString => match_items rest s
         end) s
  end.

(** [re.match(p, s)] is a match object (true) or [None] (false). A
    pattern outside the fragment is answered [false]; every statement
    about [re_match] below is about patterns of the fragment. *)
Definition re_match (p s : string) : bool :=
  match parse p with
  | Some items => match_items items s
  | None => false
  end.

(** The words a compiled pattern denotes. *)
Inductive matches : list item → string → Prop :=
| matches_nil : matches [] ""
| matches_one a rest c s :
    atom_ok a c = true → matches rest s →
    matches ((a, false) :: rest) (String c s)
| matches_star_done a rest s :
    matches rest s → matches ((a, true) :: rest) s
| matches_star_more a rest c s :
    atom_ok a c = true → matches ((a, true) :: rest) s →
    matches ((a, true) :: rest) (String c s).

(** Some prefix of [s] is a word of the pattern. *)
Definition matches_prefix (items : list item) (s : string) : Prop :=
  ∃ s1 s2, s = s1 +:+ s2 ∧ matches items s1.

End Re.

(** ** Generation info and the rule list *)

(** A location of the store. *)
Abbreviation loc := nat.

(** [TableGenerateInfo(prefix)] and [FieldGenerateInfo(definitions)]; the
    latter holds a reference to its mapping. *)
Inductive generateInfo : Type :=
| TableGenerateInfo (prefix : option string)
| FieldGenerateInfo (definitions : loc).

(** A filter: the patterns, and the generation info or [None]. *)
Definition rule : Type := list string * option generateInfo.

Section Filter.

(** [re.match(pattern, value) is not None]. *)
Variable re_match : string → string → bool.

(** Lines 113-118. [patterns[i]] raises [IndexError] when the patterns
    are fewer than the values. *)
Fixpoint is_filter_match (patterns values : list string) : result bool :=
  match values with
  | [] => Ok true
  | v :: values' =>
      match patterns with
      | [] => Err IndexError
      | p :: patterns' =>
          if re_match p v then is_filter_match patterns' values'
          else Ok false
      end
  end.

(** Lines 121-127, over the rule list [filters]. *)
Fixpoint get_generateInfo_from (filters : list rule)
    (dbObjectInfo : list string) : result (option generateInfo) :=
  match filters with
  | [] => Ok None
  | filter :: filters' =>
      if (length filter.1 =? length dbObjectInfo)%nat then
        match is_filter_match filter.1 dbObjectInfo with
        | Ok true => Ok filter.2
        | Ok false => get_generateInfo_from filters' dbObjectInfo
        | Err e => Err e
        end
      else get_generateInfo_from filters' dbObjectInfo
  end.

(** A rule applies to a subject: same arity, every element matched. *)
Definition applies (r : rule) (subject : list string) : Prop :=
  length r.1 = length subject ∧
  Forall2 (λ p v, re_match p v = true) r.1 subject.

End Filter.

(** ** The store and the output *)

(** The mappings that are shared or mutated, by location, and the lines
    printed so far. *)
Record state := {
  heap : list fdict;
  out : list string
}.

Definition M (A : Type) : Type := state → result (A * state).

Definition ret {A} (a : A) : M A := λ st, Ok (a, st).

Definition bind {A B} (m : M A) (k : A → M B) : M B :=
  λ st, match m st with
        | Ok (a, st') => k a st'
        | Err e => Err e
        end.

Definition raise {A} (e : error) : M A := λ _, Err e.

Definition lift {A} (r : result A) : M A :=
  λ st, match r with Ok a => Ok (a, st) | Err e => Err e end.

Declare Scope py_scope.
Delimit Scope py_scope with py.
Notation "x <- m ;; k" := (bind m (λ x, k))
  (at level 100, m at next level, right associativity) : py_scope.
Notation "m ;;; k" := (bind m (λ _, k))
  (at level 100, right associativity) : py_scope.
Local Open Scope py_scope.

(** [copy.deepcopy(d)] for the mapping at [l]: a new mapping at a new
    location. *)
Definition deepcopy (l : loc) : M loc :=
  λ st, match heap st !! l with
        | Some d => Ok (length (heap st),
                        {| heap := heap st ++ [d]; out := out st |})
        | None => Err InvalidReference
        end.

(** [d[k] = v], in place. *)
Definition dict_set (l : loc) (k : string) (v : pyval) : M unit :=
  λ st, match heap st !! l with
        | Some d => Ok (tt, {| heap := <[l := <[k := v]> d]> (heap st);
                               out := out st |})
        | None => Err InvalidReference
        end.

(** [d.update(other)], in place; the keys of [other] win. *)
Definition dict_update (l : loc) (other : fdict) : M unit :=
  λ st, match heap st !! l with
        | Some d => Ok (tt, {| heap := <[l := other ∪ d]> (heap st);
                               out := out st |})
        | None => Err InvalidReference
        end.

(** [d[k]]. *)
Definition dict_get (l : loc) (k : string) : M pyval :=
  λ st, match heap st !! l with
        | Some d => match d !! k with
                    | Some v => Ok (v, st)
                    | None => Err (KeyError k)
                    end
        | None => Err InvalidReference
        end.

(** The whole mapping at [l], for reading. *)
Definition dict_read (l : loc) : M fdict :=
  λ st, match heap st !! l with
        | Some d => Ok (d, st)
        | None => Err InvalidReference
        end.

(** [print line]. *)
Definition print (line : string) : M unit :=
  λ st, Ok (tt, {| heap := heap st; out := out st ++ [line] |}).

(** What a run has printed, when it ends without an exception. *)
Definition printed {A} (r : result (A * state)) : result (list string) :=
  match r with
  | Ok (_, st) => Ok (out st)
  | Err e => Err e
  end.

(** The mapping at the location a run returns. *)
Definition mapping_of (r : result (loc * state)) : result fdict :=
  match r with
  | Ok (l, st) =>
      match heap st !! l with
      | Some d => Ok d
      | None => Err InvalidReference
      end
  | Err e => Err e
  end.

(** ** Catalog objects *)

(** Lines 62-70; [prefix] is copied from the generation info. *)
Record TableInfo := {
  ti_prefix : option string;
  ti_schema : string;
  ti_name : string;
  ti_data : table_row
}.

(** Lines 73-82; [definitions] is the reference held by the generation
    info, not a copy of the mapping. *)
Record FieldInfo := {
  fi_definitions : loc;
  fi_schema : string;
  fi_table : string;
  fi_name : string;
  fi_data : column_row
}.

(** Lines 47-51. *)
Definition get_prefix (table : TableInfo) : string :=
  match ti_prefix table with
  | None => ti_schema table
  | Some prefix => prefix
  end.

(** The mapping that is the default argument of
    [FieldGenerateInfo.__init__]: made once, when the class is defined,
    and handed to every [FieldGenerateInfo()]. *)
Definition default_definitions : loc := 0%nat.

(** The store once the module is loaded. *)
Definition initial_state : state := {| heap := [∅]; out := [] |}.

(** Lines 105-111. *)
Definition FILTERS : list rule :=
  [ (["public"; "film"; "special_features"], None);
    (["public"; "film"; "fulltext"], None);
    (["public"; "film"], None);
    (["public"; ".*"], Some (TableGenerateInfo (Some "")));
    ([".*"; ".*"; ".*"], Some (FieldGenerateInfo default_definitions)) ].

Definition get_generateInfo (dbObjectInfo : list string)
    : result (option generateInfo) :=
  get_generateInfo_from Re.re_match FILTERS dbObjectInfo.

(** Line 132. *)
Definition KWARGS : list string :=
  ["type"; "length"; "default"; "required"; "ondelete";
   "notnull"; "unique"; "label"; "comment"].

(** The catalog: for each SQL statement of the script, its rows as a
    function of the statement's arguments, in the order they are passed. *)
Record connection := {
  q_tables : list table_row;
  q_columns : string → string → list column_row;
  q_unique : string → string → list string;
  q_comment : string → string → list string;
  q_primarykeys : string → string → list string;
  q_referencing : string → string → string → list key_row;
  q_referenced : string → string → list usage_row
}.

(** What [eval] gives on a default expression, through [repr]. *)
Inductive eval_outcome : Type :=
| Evaluated (repr_of_value : string)
| Raised (e : exception_class).

(** ** The pipeline *)

(** [fdef[key] == s] for a string [s]. *)
Definition py_eq_str (v : pyval) (s : string) : bool :=
  match v with
  | PyStr t => String.eqb t s
  | _ => false
  end.

(** [xs.pop(xs.index(x))], for an [x] that is in [xs]; the list that is
    left. *)
Fixpoint remove_first (x : string) (xs : list string) : list string :=
  match xs with
  | [] => []
  | y :: rest => if String.eqb y x then rest else y :: remove_first x rest
  end.

(** Lines 363-364: the keyword arguments of a [Field], in the order of
    [KWARGS], without those that are missing or false. *)
Definition kwargs_text (fdef : fdict) : string :=
  join ", "
    (omap (λ k, match fdef !! k with
                | Some v => if truthy v then Some (k +:+ "=" +:+ py_str v)
                            else None
                | None => None
                end) KWARGS).

(** Lines 159-171. [TableInfo.__init__] reads [generateInfo.prefix]. *)
Fixpoint tables_of_rows (rows : list table_row) : result (list TableInfo) :=
  match rows with
  | [] => Ok []
  | row :: rows' =>
      match get_generateInfo [tr_table_schema row; tr_table_name row] with
      | Err e => Err e
      | Ok None => tables_of_rows rows'
      | Ok (Some (FieldGenerateInfo _)) => Err AttributeError
      | Ok (Some (TableGenerateInfo prefix)) =>
          match tables_of_rows rows' with
          | Err e => Err e
          | Ok result =>
              Ok ({| ti_prefix := prefix;
                     ti_schema := tr_table_schema row;
                     ti_name := tr_table_name row;
                     ti_data := row |} :: result)
          end
      end
  end.

Definition get_tables (conn : connection) : result (list TableInfo) :=
  tables_of_rows (q_tables conn).

(** Lines 174-195. [FieldInfo.__init__] reads [generateInfo.definitions]
    and keeps that reference. *)
Fixpoint fields_of_rows (table : TableInfo) (rows : list column_row)
    : result (list FieldInfo) :=
  match rows with
  | [] => Ok []
  | row :: rows' =>
      match get_generateInfo
              [cr_table_schema row; cr_table_name row; cr_column_name row] with
      | Err e => Err e
      | Ok None => fields_of_rows table rows'
      | Ok (Some (TableGenerateInfo _)) => Err AttributeError
      | Ok (Some (FieldGenerateInfo definitions)) =>
          match fields_of_rows table rows' with
          | Err e => Err e
          | Ok result =>
              Ok ({| fi_definitions := definitions;
                     fi_schema := ti_schema table;
                     fi_table := ti_name table;
                     fi_name := cr_column_name row;
                     fi_data := row |} :: result)
          end
      end
  end.

Definition get_fields (conn : connection) (table : TableInfo)
    : result (list FieldInfo) :=
  fields_of_rows table (q_columns conn (ti_name table) (ti_schema table)).

(** Lines 264-275. *)
Definition is_unique (conn : connection) (field : FieldInfo) : bool :=
  match q_unique conn (fi_table field) (fi_name field) with
  | [] => false
  | _ :: _ => true
  end.

(** Lines 278-289: [rows and rows[0]['comment'] or None]. *)
Definition get_comment (conn : connection) (field : FieldInfo)
    : option string :=
  match q_comment conn (fi_table field) (fi_name field) with
  | [] => None
  | comment :: _ => if truthy (PyStr comment) then Some comment else None
  end.

(** Lines 292-303. *)
Definition primarykeys (conn : connection) (table : TableInfo)
    : list string :=
  q_primarykeys conn (ti_name table) (ti_schema table).

Section Mapper.

(** [repr(eval(text))]: the printed value, or the exception raised. *)
Variable eval_repr : string → eval_outcome.

(** [repr(s)] of a string. *)
Variable repr_str : string → string.

(** Lines 306-346. The result is the [ref] mapping, or [None] when the
    function ends without [return]. A row is a mapping with keys, hence
    true as a condition. *)
Definition references (conn : connection) (field : FieldInfo)
    : result (option fdict) :=
  let rows1 :=
    q_referencing conn (fi_table field) (fi_schema field) (fi_name field) in
  if (length rows1 =? 1)%nat then
    match rows1 with
    | [] => Err IndexError
    | r1 :: _ =>
        let rows2 := q_referenced conn (kr_constraint_name r1)
                       (kr_constraint_schema r1) in
        match (if (1 <? length rows2)%nat then
                 match py_index rows2 (kr_ordinal_position r1 - 1) with
                 | Some row => Ok (Some (row, true))
                 | None => Err IndexError
                 end
               else Ok None) with
        | Err e => Err e
        | Ok chosen =>
            let chosen :=
              if (length rows2 =? 1)%nat then
                match rows2 with
                | row :: _ => Some (row, false)
                | [] => chosen
                end
              else chosen in
            match chosen with
            | Some (row, keyed) =>
                let ref : fdict :=
                  if keyed : bool then
                    {[ "type" := PyStr ("'reference " +:+ ur_table_schema row
                         +:+ "." +:+ ur_table_name row
                         +:+ "." +:+ ur_column_name row +:+ "'") ]}
                  else
                    {[ "type" := PyStr ("'reference " +:+ ur_table_schema row
                         +:+ "." +:+ ur_table_name row +:+ "'") ]} in
                let ref :=
                  if negb (String.eqb (kr_delete_rule r1) "NO ACTION")
                  then <["ondelete" := PyStr (repr_str (kr_delete_rule r1))]> ref
                  else ref in
                Ok (Some ref)
            | None =>
                match rows2 with
                | _ :: _ => Err (UnsupportedForeignKeyReference rows2)
                | [] => Ok None
                end
            end
        end
    end
  else
    match rows1 with
    | _ :: _ => Err (UnsupportedReferentialConstraint rows1)
    | [] => Ok None
    end.

(** [if ref:] a mapping is true when it has a key. *)
Definition ref_if_true (ref : option fdict) : option fdict :=
  match ref with
  | Some r => if bool_decide (r = ∅) then None else Some r
  | None => None
  end.

(** Lines 198-261; writes go to the copy [f]. *)
Definition define_field (conn : connection) (field : FieldInfo)
    (pks : list string) : M loc :=
  let row := fi_data field in
  let data_type := cr_data_type row in
  f <- deepcopy (fi_definitions field);;
  ref <- lift (references conn field);;
  match ref_if_true ref with
  | Some r => dict_update f r
  | None =>
      if match cr_column_default row with
         | Some d => truthy (PyStr d) && String.prefix "nextval" d
                     && py_in (cr_column_name row) pks
         | None => false
         end
      then dict_set f "type" (PyStr "'id'")
      else if String.prefix "character" data_type then
        dict_set f "type" (PyStr "'string'");;;
        if truthy (cr_character_maximum_length row)
        then dict_set f "length" (cr_character_maximum_length row)
        else ret tt
      else if py_in data_type ["text"] then
        dict_set f "type" (PyStr "'text'")
      else if py_in data_type ["boolean"; "bit"] then
        dict_set f "type" (PyStr "'boolean'")
      else if py_in data_type ["integer"; "smallint"; "bigint"] then
        dict_set f "type" (PyStr "'integer'")
      else if py_in data_type ["double precision"; "real"] then
        dict_set f "type" (PyStr "'double'")
      else if py_in data_type ["timestamp"; "timestamp without time zone"]
      then dict_set f "type" (PyStr "'datetime'")
      else if py_in data_type ["date"] then
        dict_set f "type" (PyStr "'date'")
      else if py_in data_type ["time"; "time without time zone"] then
        dict_set f "type" (PyStr "'time'")
      else if py_in data_type ["numeric"; "currency"] then
        dict_set f "precision" (cr_numeric_precision row);;;
        dict_set f "scale" (py_or (cr_numeric_scale row) (PyInt 0));;;
        precision <- dict_get f "precision";;
        scale <- dict_get f "scale";;
        dict_set f "type"
          (PyStr ("'decimal(" +:+ py_str precision +:+ ","
                  +:+ py_str scale +:+ ")'"))
      else if py_in data_type ["bytea"] then
        dict_set f "type" (PyStr "'blob'")
      else if py_in data_type
                ["point"; "lseg"; "polygon"; "unknown"; "USER-DEFINED"]
      then dict_set f "type" (PyStr "")
      else raise (DataTypeNotSupported (fi_schema field) (fi_table field)
                    (fi_name field) data_type)
  end;;;
  match cr_column_default row with
  | Some column_default =>
      if truthy (PyStr column_default) then
        match (if String.eqb column_default "now()"
               then Evaluated "request.now"
               else if String.eqb column_default "true"
               then Evaluated "True"
               else if String.eqb column_default "false"
               then Evaluated "False"
               else eval_repr column_default) with
        | Evaluated d => dict_set f "default" (PyStr d)
        | Raised e =>
            if is_ValueError_or_SyntaxError e then ret tt
            else if is_Exception e
            then raise (DefaultUnsupported column_default)
            else raise (Uncaught e)
        end
      else ret tt
  | None => ret tt
  end;;;
  (if negb (truthy (cr_is_nullable row))
   then dict_set f "notnull" (PyStr "True")
   else ret tt);;;
  match get_comment conn field with
  | Some comment => dict_set f "comment" (PyStr (repr_str comment))
  | None => ret tt
  end;;;
  ret f.

(** Lines 355-364: the loop over the fields; [pks] is the list that
    [pop] shrinks. *)
Fixpoint define_fields (conn : connection) (fields : list FieldInfo)
    (pks : list string) : M (list string) :=
  match fields with
  | [] => ret pks
  | field :: fields' =>
      let fname := fi_name field in
      fdef <- define_field conn field pks;;
      (if negb (py_in fname pks) && is_unique conn field
       then dict_set fdef "unique" (PyStr "True")
       else ret tt);;;
      type <- dict_get fdef "type";;
      let pks :=
        if py_eq_str type "'id'" && py_in fname pks
        then remove_first fname pks else pks in
      fdef_now <- dict_read fdef;;
      print ("    Field('" +:+ fname +:+ "', " +:+ kwargs_text fdef_now
             +:+ "),");;;
      define_fields conn fields' pks
  end.

(** Line 366. *)
Definition primarykey_line (pks : list string) : string :=
  "    primarykey=[" +:+ join ", " (map (λ pk, "'" +:+ pk +:+ "'") pks)
  +:+ "],".

(** Lines 349-368. *)
Definition define_table (conn : connection) (table : TableInfo) : M unit :=
  fields <- lift (get_fields conn table);;
  let pks := primarykeys conn table in
  print ("db.define_table('" +:+ get_prefix table +:+ ti_name table
         +:+ "',");;;
  print ("    rname='" +:+ ti_schema table +:+ "." +:+ ti_name table
         +:+ "',");;;
  pks <- define_fields conn fields pks;;
  match pks with
  | _ :: _ => print (primarykey_line pks)
  | [] => ret tt
  end;;;
  print "    migrate=migrate)";;;
  print "".

End Mapper.

(** ** The functional reading of [define_field]

    [define_field] only writes to its copy [f], so what it does is a
    function from the copied mapping to the finished one. The four
    functions below are its four blocks, read that way;
    [define_field_run] proves that they are what the stateful code
    computes. *)

Section Reading.

Variable eval_repr : string → eval_outcome.
Variable repr_str : string → string.

(** Lines 201-236. *)
Definition type_value (conn : connection) (field : FieldInfo)
    (pks : list string) (f : fdict) : result fdict :=
  let row := fi_data field in
  let data_type := cr_data_type row in
  match references repr_str conn field with
  | Err e => Err e
  | Ok ref =>
      match ref_if_true ref with
      | Some r => Ok (r ∪ f)
      | None =>
          if match cr_column_default row with
             | Some d => truthy (PyStr d) && String.prefix "nextval" d
                         && py_in (cr_column_name row) pks
             | None => false
             end
          then Ok (<["type" := PyStr "'id'"]> f)
          else if String.prefix "character" data_type then
            Ok (if truthy (cr_character_maximum_length row)
                then <["length" := cr_character_maximum_length row]>
                       (<["type" := PyStr "'string'"]> f)
                else <["type" := PyStr "'string'"]> f)
          else if py_in data_type ["text"] then
            Ok (<["type" := PyStr "'text'"]> f)
          else if py_in data_type ["boolean"; "bit"] then
            Ok (<["type" := PyStr "'boolean'"]> f)
          else if py_in data_type ["integer"; "smallint"; "bigint"] then
            Ok (<["type" := PyStr "'integer'"]> f)
          else if py_in data_type ["double precision"; "real"] then
            Ok (<["type" := PyStr "'double'"]> f)
          else if py_in data_type
                    ["timestamp"; "timestamp without time zone"]
          then Ok (<["type" := PyStr "'datetime'"]> f)
          else if py_in data_type ["date"] then
            Ok (<["type" := PyStr "'date'"]> f)
          else if py_in data_type ["time"; "time without time zone"] then
            Ok (<["type" := PyStr "'time'"]> f)
          else if py_in data_type ["numeric"; "currency"] then
            let f2 := <["scale" := py_or (cr_numeric_scale row) (PyInt 0)]>
                        (<["precision" := cr_numeric_precision row]> f) in
            match f2 !! "precision" with
            | None => Err (KeyError "precision")
            | Some precision =>
                match f2 !! "scale" with
                | None => Err (KeyError "scale")
                | Some scale =>
                    Ok (<["type" :=
                            PyStr ("'decimal(" +:+ py_str precision +:+ ","
                                   +:+ py_str scale +:+ ")'")]> f2)
                end
            end
          else if py_in data_type ["bytea"] then
            Ok (<["type" := PyStr "'blob'"]> f)
          else if py_in data_type
                    ["point"; "lseg"; "polygon"; "unknown"; "USER-DEFINED"]
          then Ok (<["type" := PyStr ""]> f)
          else Err (DataTypeNotSupported (fi_schema field) (fi_table field)
                      (fi_name field) data_type)
      end
  end.

(** Lines 238-253. *)
Definition default_value (field : FieldInfo) (f : fdict) : result fdict :=
  match cr_column_default (fi_data field) with
  | Some column_default =>
      if truthy (PyStr column_default) then
        match (if String.eqb column_default "now()"
               then Evaluated "request.now"
               else if String.eqb column_default "true"
               then Evaluated "True"
               else if String.eqb column_default "false"
               then Evaluated "False"
               else eval_repr column_default) with
        | Evaluated d => Ok (<["default" := PyStr d]> f)
        | Raised e =>
            if is_ValueError_or_SyntaxError e then Ok f
            else if is_Exception e
            then Err (DefaultUnsupported column_default)
            else Err (Uncaught e)
        end
      else Ok f
  | None => Ok f
  end.

(** Lines 255-256. *)
Definition notnull_value (field : FieldInfo) (f : fdict) : fdict :=
  if negb (truthy (cr_is_nullable (fi_data field)))
  then <["notnull" := PyStr "True"]> f
  else f.

(** Lines 258-260. *)
Definition comment_value (conn : connection) (field : FieldInfo)
    (f : fdict) : fdict :=
  match get_comment conn field with
  | Some comment => <["comment" := PyStr (repr_str comment)]> f
  | None => f
  end.

Definition field_value (conn : connection) (field : FieldInfo)
    (pks : list string) (f : fdict) : result fdict :=
  match type_value conn field pks f with
  | Err e => Err e
  | Ok f1 =>
      match default_value field f1 with
      | Err e => Err e
      | Ok f2 => Ok (comment_value conn field (notnull_value field f2))
      end
  end.

(** Lines 358-359 on the finished mapping. *)
Definition unique_value (conn : connection) (field : FieldInfo)
    (pks : list string) (f : fdict) : fdict :=
  if negb (py_in (fi_name field) pks) && is_unique conn field
  then <["unique" := PyStr "True"]> f
  else f.

(** Lines 360-361: the primary keys that are left. *)
Definition pks_after (field : FieldInfo) (pks : list string)
    (type : pyval) : list string :=
  if py_eq_str type "'id'" && py_in (fi_name field) pks
  then remove_first (fi_name field) pks else pks.

(** Lines 362-364. *)
Definition field_line (field : FieldInfo) (fdef : fdict) : string :=
  "    Field('" +:+ fi_name field +:+ "', " +:+ kwargs_text fdef +:+ "),".

(** The condition of lines 204-206: a sequence default on a column of the
    primary key. *)
Definition identity_override (field : FieldInfo) (pks : list string)
    : bool :=
  match cr_column_default (fi_data field) with
  | Some d => truthy (PyStr d) && String.prefix "nextval" d
              && py_in (cr_column_name (fi_data field)) pks
  | None => false
  end.

(** The default expression is one [define_field] has a value for, or
    drops: [eval] does not raise anything but a [ValueError] or a
    [SyntaxError] on it. *)
Definition default_supported (field : FieldInfo) : bool :=
  is_ok (default_value field ∅).

(** A field that is resolved whatever the primary keys and the store,
    as long as its [definitions] are in the store. *)
Definition resolvable (conn : connection) (field : FieldInfo) : Prop :=
  ∀ pks st, is_Some (heap st !! fi_definitions field) →
            is_ok (define_field eval_repr repr_str conn field pks st) = true.

End Reading.

(** ** Sample catalogs *)

Module Sample.

(** An evaluator that agrees with [repr(eval(text))] on the texts used
    below. *)
Definition eval_repr (text : string) : eval_outcome :=
  if String.eqb text "0" then Evaluated "0"
  else if String.eqb text "1/0" then Raised ZeroDivisionError
  else if String.eqb text "'x'::text" then Raised SyntaxError
  else if String.eqb text "nextval('payment_payment_id_seq'::regclass)"
  then Raised SyntaxError
  else Raised NameError.

(** [repr] of a string without quotes, backslashes or control
    characters. *)
Definition repr_str (s : string) : string := "'" +:+ s +:+ "'".

Definition column (table name data_type : string) (is_nullable : pyval)
    (precision scale : pyval) (default : option string) : column_row :=
  {| cr_table_schema := "public"; cr_table_name := table;
     cr_column_name := name; cr_data_type := data_type;
     cr_is_nullable := is_nullable;
     cr_character_maximum_length := PyNone;
     cr_numeric_precision := precision; cr_numeric_scale := scale;
     cr_column_default := default |}.

Definition field_of (row : column_row) : FieldInfo :=
  {| fi_definitions := default_definitions;
     fi_schema := cr_table_schema row; fi_table := cr_table_name row;
     fi_name := cr_column_name row; fi_data := row |}.

Definition payment : TableInfo :=
  {| ti_prefix := Some ""; ti_schema := "public"; ti_name := "payment";
     ti_data := {| tr_table_schema := "public";
                   tr_table_name := "payment" |} |}.

Definition payment_id : column_row :=
  column "payment" "payment_id" "integer" (PyStr "NO") (PyInt 32) (PyInt 0)
    (Some "nextval('payment_payment_id_seq'::regclass)").

Definition amount : column_row :=
  column "payment" "amount" "numeric" (PyStr "NO") (PyInt 10) (PyInt 2)
    None.

(** The same column, for a driver that would report nullability as a
    boolean. *)
Definition amount_bool : column_row :=
  column "payment" "amount" "numeric" (PyBool false) (PyInt 10) (PyInt 2)
    None.

Definition paid_tz : column_row :=
  column "payment" "paid" "timestamp with time zone" (PyStr "YES")
    PyNone PyNone None.

Definition paid : column_row :=
  column "payment" "paid" "timestamp without time zone" (PyStr "YES")
    PyNone PyNone (Some "now()").

Definition customer_fk : key_row :=
  {| kr_table_name := "payment"; kr_column_name := "payment_id";
     kr_constraint_name := "payment_customer_fkey";
     kr_constraint_schema := "public";
     kr_update_rule := "NO ACTION"; kr_delete_rule := "NO ACTION";
     kr_ordinal_position := 1 |}.

Definition rental_fk : key_row :=
  {| kr_table_name := "payment"; kr_column_name := "payment_id";
     kr_constraint_name := "payment_rental_fkey";
     kr_constraint_schema := "public";
     kr_update_rule := "NO ACTION"; kr_delete_rule := "CASCADE";
     kr_ordinal_position := 2 |}.

Definition customer_id : usage_row :=
  {| ur_table_schema := "public"; ur_table_name := "customer";
     ur_column_name := "customer_id" |}.

Definition rental_store : usage_row :=
  {| ur_table_schema := "public"; ur_table_name := "rental";
     ur_column_name := "store_id" |}.

Definition rental_no : usage_row :=
  {| ur_table_schema := "public"; ur_table_name := "rental";
     ur_column_name := "rental_no" |}.

(** A catalog with the table [public.payment]: its columns, the rows
    that name [payment_id] as the referencing side of a foreign key, and
    the referenced side of every constraint. *)
Definition catalog (columns : list column_row) (referencing : list key_row)
    (referenced : list usage_row) : connection :=
  {| q_tables := [ {| tr_table_schema := "public";
                      tr_table_name := "payment" |};
                   {| tr_table_schema := "public";
                      tr_table_name := "films" |} ];
     q_columns := λ table schema,
       if String.eqb table "payment" && String.eqb schema "public"
       then columns else [];
     q_unique := λ _ _, [];
     q_comment := λ _ _, [];
     q_primarykeys := λ table schema,
       if String.eqb table "payment" && String.eqb schema "public"
       then ["payment_id"] else [];
     q_referencing := λ table schema column,
       if String.eqb column "payment_id" then referencing else [];
     q_referenced := λ _ _, referenced |}.

End Sample.

(** ** The whole model *)

Section Database.

Variable eval_repr : string → eval_outcome.
Variable repr_str : string → string.

(** Lines 378-379: the loop over the tables. *)
Fixpoint define_tables (conn : connection) (tables : list TableInfo)
    : M unit :=
  match tables with
  | [] => ret tt
  | table :: tables' =>
      define_table eval_repr repr_str conn table;;;
      define_tables conn tables'
  end.

(** Line 373, with its arguments filled in. *)
Definition dal_line (db host port user passwd : string) : string :=
  "db = DAL(" +:+ String "034"%char "postgres://" +:+ user +:+ ":"
  +:+ passwd +:+ "@" +:+ host +:+ ":" +:+ port +:+ "/" +:+ db
  +:+ String "034"%char ", pool_size=10)".

(** Lines 371-379. [get_tables] is called once the four lines of the
    head are printed. *)
Definition define_db (conn : connection) (db host port user passwd : string)
    : M unit :=
  print (dal_line db host port user passwd);;;
  print "";;;
  print "migrate = False";;;
  print "";;;
  tables <- lift (get_tables conn);;
  define_tables conn tables.

End Database.

(** A pattern that is made of ordinary characters only: no
    metacharacter and no [.]. *)
Fixpoint plain_pattern (p : string) : bool :=
  match p with
  | EmptyString => true
  | String c rest =>
      negb (Re.is_meta c) && negb (Ascii.eqb c "."%char)
      && plain_pattern rest
  end.

(** What a plain pattern compiles to. *)
Fixpoint literal_items (p : string) : list Re.item :=
  match p with
  | EmptyString => []
  | String c rest => (Re.Lit c, false) :: literal_items rest
  end.

(** Lines 167-169 and 191-193 with the rule list of the script: the rows
    that are kept. *)
Definition table_kept (row : table_row) : bool :=
  String.prefix "public" (tr_table_schema row)
  && negb (String.prefix "film" (tr_table_name row)).

Definition column_kept (row : column_row) : bool :=
  negb (String.prefix "public" (cr_table_schema row)
        && String.prefix "film" (cr_table_name row)
        && (String.prefix "special_features" (cr_column_name row)
            || String.prefix "fulltext" (cr_column_name row))).

(** The catalog types that some branch of [define_field] names, besides
    those that start with [character]. *)
Definition named_data_types : list string :=
  ["text"; "boolean"; "bit"; "integer"; "smallint"; "bigint";
   "double precision"; "real"; "timestamp"; "timestamp without time zone";
   "date"; "time"; "time without time zone"; "numeric"; "currency";
   "bytea"; "point"; "lseg"; "polygon"; "unknown"; "USER-DEFINED"].

(** * Properties *)

(** ** [re.match] matches a prefix *)

Lemma star_unfold a rest s :
  Re.match_items ((a, true) :: rest) s =
  match s with
  | String c s' =>
      (Re.atom_ok a c && Re.match_items ((a, true) :: rest) s')
      || Re.match_items rest s
  | EmptyString => Re.match_items rest s
  end.
Proof. destruct s; reflexivity. Qed.

Lemma match_items_sound items s :
  Re.match_items items s = true → Re.matches_prefix items s.
Proof.
  revert s. induction items as [|[a starred] rest IH]; intros s.
  - intros _. exists "", s. split; [reflexivity | constructor].
  - destruct starred.
    + induction s as [|c s' IHs]; rewrite star_unfold.
      * intros H. destruct (IH _ H) as (s1 & s2 & E & Hm).
        exists s1, s2. split; [exact E | by constructor].
      * intros H. apply orb_true_iff in H as [H|H].
        -- apply andb_true_iff in H as [Hc H].
           destruct (IHs H) as (s1 & s2 & E & Hm).
           exists (String c s1), s2. split.
           ++ simpl. by rewrite E.
           ++ by apply Re.matches_star_more.
        -- destruct (IH _ H) as (s1 & s2 & E & Hm).
           exists s1, s2. split; [exact E | by constructor].
    + destruct s as [|c s']; simpl; [discriminate|].
      intros H. apply andb_true_iff in H as [Hc H].
      destruct (IH _ H) as (s1 & s2 & E & Hm).
      exists (String c s1), s2. split.
      * simpl. by rewrite E.
      * by constructor.
Qed.

Lemma match_items_complete items s1 :
  Re.matches items s1 → ∀ s2, Re.match_items items (s1 +:+ s2) = true.
Proof.
  induction 1 as [|a rest c s Hc _ IH|a rest s _ IH|a rest c s Hc _ IH];
    intros s2.
  - reflexivity.
  - simpl. by rewrite Hc, IH.
  - rewrite star_unfold. specialize (IH s2).
    destruct (s +:+ s2); [exact IH|]. rewrite IH. apply orb_true_r.
  - change (String c s +:+ s2) with (String c (s +:+ s2)).
    rewrite star_unfold. by rewrite Hc, IH.
Qed.

(** The matcher answers true exactly when a prefix of the subject is a
    word of the pattern. *)
Lemma match_items_prefix items s :
  Re.match_items items s = true ↔ Re.matches_prefix items s.
Proof.
  split; [apply match_items_sound|].
  intros (s1 & s2 & -> & Hm). by apply match_items_complete.
Qed.

Lemma re_match_prefix p items s :
  Re.parse p = Some items →
  Re.re_match p s = true ↔ Re.matches_prefix items s.
Proof. intros Hp. unfold Re.re_match. rewrite Hp. apply match_items_prefix. Qed.

(** ** The filter engine *)

Section FilterProperties.

Variable re_match : string → string → bool.

Lemma is_filter_match_same_arity patterns values :
  length patterns = length values →
  (is_filter_match re_match patterns values = Ok true ∧
   Forall2 (λ p v, re_match p v = true) patterns values)
  ∨ (is_filter_match re_match patterns values = Ok false ∧
     ¬ Forall2 (λ p v, re_match p v = true) patterns values).
Proof.
  revert patterns. induction values as [|v values IH];
    intros [|p patterns] Hlen; try discriminate.
  - left. split; [reflexivity | constructor].
  - simpl. destruct (re_match p v) eqn:Hpv.
    + injection Hlen as Hlen.
      destruct (IH _ Hlen) as [[-> HF]|[-> HF]].
      * left. split; [reflexivity | by constructor].
      * right. split; [reflexivity|]. intros H. inversion H; subst. by apply HF.
    + right. split; [reflexivity|]. intros H. inversion H; subst. congruence.
Qed.

Lemma rule_decided (r : rule) subject :
  (applies re_match r subject ∧
   (length r.1 =? length subject)%nat = true ∧
   is_filter_match re_match r.1 subject = Ok true)
  ∨ (¬ applies re_match r subject ∧
     ((length r.1 =? length subject)%nat = false ∨
      is_filter_match re_match r.1 subject = Ok false)).
Proof.
  destruct (length r.1 =? length subject)%nat eqn:Hlen.
  - apply Nat.eqb_eq in Hlen.
    destruct (is_filter_match_same_arity _ _ Hlen) as [[E HF]|[E HF]].
    + left. by repeat split.
    + right. split; [|by right]. by intros [_ H].
  - right. split; [|by left]. intros [H _]. apply Nat.eqb_neq in Hlen. lia.
Qed.

End FilterProperties.

(** C1. [get_generateInfo] scans the rule list in order. Rules that do not
    apply to the subject (because their arity is not the subject's, or
    because some element is not matched) are passed over; the directive of
    the first rule that applies is the result, whatever comes after it;
    and when no rule applies the result is [None], the same value as the
    directive of a rule that excludes. *)
Theorem get_generateInfo_first_match
    (re_match : string → string → bool) (filters : list rule)
    (subject : list string) :
  (∃ skipped patterns directive later,
      filters = (skipped ++ (patterns, directive) :: later)%list ∧
      Forall (λ r, ¬ applies re_match r subject) skipped ∧
      applies re_match (patterns, directive) subject ∧
      get_generateInfo_from re_match filters subject = Ok directive)
  ∨ (Forall (λ r, ¬ applies re_match r subject) filters ∧
     get_generateInfo_from re_match filters subject = Ok None).
Proof.
  induction filters as [|r filters IH].
  - right. split; [constructor | reflexivity].
  - destruct (rule_decided re_match r subject) as [(Ha & Hl & Hm)|[Hn Hs]].
    + left. exists [], r.1, r.2, filters. destruct r as [pat dir].
      repeat split; try done; try apply Ha.
      simpl in *. by rewrite Hl, Hm.
    + assert (get_generateInfo_from re_match (r :: filters) subject
              = get_generateInfo_from re_match filters subject) as ->.
      { simpl. destruct Hs as [->| ->]; [done|].
        by destruct (length r.1 =? length subject)%nat. }
      destruct IH as [(sk & pat & dir & later & -> & Hsk & Ha & E)|[Hall E]].
      * left. exists (r :: sk), pat, dir, later.
        repeat split; try done; try apply Ha. by constructor.
      * right. split; [by constructor | done].
Qed.

Lemma parse_matches_agree patterns compiled values :
  Forall2 (λ p items, Re.parse p = Some items) patterns compiled →
  Forall2 (λ p v, Re.re_match p v = true) patterns values
  ↔ Forall2 Re.matches_prefix compiled values.
Proof.
  intros Hp. revert values.
  induction Hp as [|p items patterns compiled Hparse _ IH]; intros values.
  - split; intros H; inversion H; constructor.
  - split; intros H; inversion H as [|? v ? values' Hv Hrest]; subst;
      constructor; try (by apply IH).
    + by apply (re_match_prefix p).
    + by apply (re_match_prefix p items).
Qed.

(** C9, as the code has it. [re.match] anchors a pattern at the start of
    the subject element and not at its end: for patterns of the fragment
    and a subject of the same arity, the rule matches exactly when every
    pattern element matches some prefix of its subject element. *)
Theorem is_filter_match_anchored_at_start
    (patterns values : list string) (compiled : list (list Re.item)) :
  Forall2 (λ p items, Re.parse p = Some items) patterns compiled →
  length patterns = length values →
  is_filter_match Re.re_match patterns values = Ok true
  ↔ Forall2 Re.matches_prefix compiled values.
Proof.
  intros Hp Hlen. rewrite <- (parse_matches_agree patterns compiled values Hp).
  destruct (is_filter_match_same_arity Re.re_match _ _ Hlen) as [[-> H]|[-> H]].
  - done.
  - split; [discriminate | done].
Qed.

Lemma is_filter_match_anchored_at_start_witness :
  Forall2 Re.matches_prefix
    [ [(Re.Lit "p", false); (Re.Lit "u", false); (Re.Lit "b", false);
       (Re.Lit "l", false); (Re.Lit "i", false); (Re.Lit "c", false)];
      [(Re.AnyChar, true)] ]%char
    ["public"; "actor"].
Proof.
  apply (is_filter_match_anchored_at_start ["public"; ".*"]).
  - repeat constructor.
  - reflexivity.
  - reflexivity.
Defined.

(** C9, as the claim has it, fails. The pattern [film] does not denote
    the word [films], only its proper prefix [film]; the rule
    [('public', 'film')] matches the table [public.films] all the same,
    and with the rule list of the script that table is not generated. *)
Lemma film_matches_films :
  Re.parse "film"
  = Some [(Re.Lit "f", false); (Re.Lit "i", false);
          (Re.Lit "l", false); (Re.Lit "m", false)]%char
  ∧ ¬ Re.matches [(Re.Lit "f", false); (Re.Lit "i", false);
                  (Re.Lit "l", false); (Re.Lit "m", false)]%char "films"
  ∧ is_filter_match Re.re_match ["public"; "film"] ["public"; "films"]
    = Ok true
  ∧ get_generateInfo ["public"; "films"] = Ok None.
Proof.
  repeat split; try reflexivity.
  intros H.
  repeat match goal with
         | H : Re.matches _ _ |- _ => inversion H; subst; clear H
         end.
Qed.

(** ** The store *)

Lemma lookup_last (h : list fdict) d : (h ++ [d]) !! length h = Some d.
Proof. by rewrite lookup_app_r, Nat.sub_diag. Qed.

Lemma insert_last (h : list fdict) d d' :
  <[length h := d']> (h ++ [d]) = h ++ [d'].
Proof. by rewrite insert_app_r_alt, Nat.sub_diag. Qed.

Lemma deepcopy_run st l d :
  heap st !! l = Some d →
  deepcopy l st
  = Ok (length (heap st), {| heap := heap st ++ [d]; out := out st |}).
Proof. intros H. unfold deepcopy. by rewrite H. Qed.

Lemma dict_set_last h o d k v :
  dict_set (length h) k v {| heap := h ++ [d]; out := o |}
  = Ok (tt, {| heap := h ++ [<[k := v]> d]; out := o |}).
Proof. unfold dict_set. simpl. by rewrite lookup_last, insert_last. Qed.

Lemma dict_update_last h o d other :
  dict_update (length h) other {| heap := h ++ [d]; out := o |}
  = Ok (tt, {| heap := h ++ [other ∪ d]; out := o |}).
Proof. unfold dict_update. simpl. by rewrite lookup_last, insert_last. Qed.

Lemma dict_get_last h o d k :
  dict_get (length h) k {| heap := h ++ [d]; out := o |}
  = match d !! k with
    | Some v => Ok (v, {| heap := h ++ [d]; out := o |})
    | None => Err (KeyError k)
    end.
Proof. unfold dict_get. simpl. by rewrite lookup_last. Qed.

Lemma dict_read_last h o d :
  dict_read (length h) {| heap := h ++ [d]; out := o |}
  = Ok (d, {| heap := h ++ [d]; out := o |}).
Proof. unfold dict_read. simpl. by rewrite lookup_last. Qed.

Ltac run_on_copy :=
  repeat first
    [ rewrite dict_set_last
    | rewrite dict_update_last
    | rewrite dict_get_last
    | rewrite dict_read_last
    | progress cbv beta iota
    | match goal with
      | |- context [match ?x with _ => _ end] =>
          lazymatch type of x with
          | bool => destruct x
          | option _ => destruct x
          | eval_outcome => destruct x
          end
      end ].

Section FieldProperties.

Variable eval_repr : string → eval_outcome.
Variable repr_str : string → string.

(** ** [define_field] computes [field_value] on a copy *)

Lemma define_field_run conn field pks st :
  define_field eval_repr repr_str conn field pks st
  = match heap st !! fi_definitions field with
    | None => Err InvalidReference
    | Some d0 =>
        match field_value eval_repr repr_str conn field pks d0 with
        | Ok f => Ok (length (heap st),
                      {| heap := heap st ++ [f]; out := out st |})
        | Err e => Err e
        end
    end.
Proof.
  unfold define_field, field_value, type_value, default_value,
    notnull_value, comment_value, bind, lift, ret, raise.
  destruct (heap st !! fi_definitions field) as [d0|] eqn:Hd0.
  - rewrite (deepcopy_run _ _ _ Hd0). destruct st as [h o].
    cbn [heap out]. cbv beta iota zeta.
    destruct (references repr_str conn field) as [ref|e]; [|reflexivity].
    cbv beta iota.
    destruct (ref_if_true ref) as [r|].
    + run_on_copy; reflexivity.
    + run_on_copy; reflexivity.
  - unfold deepcopy. by rewrite Hd0.
Qed.

End FieldProperties.

(** ** Foreign keys *)

(** C2. A column that no referential constraint names as its referencing
    side has no reference, and that is not an error; a column that more
    than one row names makes [references] raise the error that carries
    those rows. *)
Theorem references_none_or_many
    (repr_str : string → string) (conn : connection) (field : FieldInfo) :
  let rows1 :=
    q_referencing conn (fi_table field) (fi_schema field) (fi_name field) in
  (rows1 = [] → references repr_str conn field = Ok None)
  ∧ ((1 < length rows1)%nat →
     references repr_str conn field
     = Err (UnsupportedReferentialConstraint rows1)).
Proof.
  unfold references. cbv zeta.
  destruct (q_referencing _ _ _ _) as [|r1 [|r2 rows]]; split; simpl;
    intros H; try done; lia.
Qed.

Lemma references_none_or_many_witness :
  references Sample.repr_str (Sample.catalog [Sample.payment_id] [] [])
    (Sample.field_of Sample.payment_id) = Ok None
  ∧ references Sample.repr_str
      (Sample.catalog [Sample.payment_id]
         [Sample.customer_fk; Sample.rental_fk] [Sample.customer_id])
      (Sample.field_of Sample.payment_id)
    = Err (UnsupportedReferentialConstraint
             [Sample.customer_fk; Sample.rental_fk]).
Proof.
  split.
  - apply (references_none_or_many Sample.repr_str
             (Sample.catalog [Sample.payment_id] [] [])
             (Sample.field_of Sample.payment_id)).
    reflexivity.
  - apply (references_none_or_many Sample.repr_str
             (Sample.catalog [Sample.payment_id]
                [Sample.customer_fk; Sample.rental_fk] [Sample.customer_id])
             (Sample.field_of Sample.payment_id)).
    simpl. lia.
Defined.

Lemma py_index_in_range {A} (xs : list A) (i : Z) (x : A) :
  0 ≤ i → xs !! Z.to_nat i = Some x → py_index xs i = Some x.
Proof.
  intros Hi Hx. unfold py_index.
  assert (Z.to_nat i < length xs)%nat by (eapply lookup_lt_Some; eauto).
  destruct (0 <=? i) eqn:E1; [|lia].
  destruct (i <? Z.of_nat (length xs)) eqn:E2; [exact Hx | lia].
Qed.

(** C3. With one referential constraint for the column: a referenced side
    of one column gives the type ['reference schema.table'], without a
    column; a referenced side of several columns gives
    ['reference schema.table.column'] for the row at index
    [ordinal_position - 1] of the referenced side. *)
Theorem references_unkeyed_or_keyed
    (repr_str : string → string) (conn : connection) (field : FieldInfo)
    (r1 : key_row) :
  q_referencing conn (fi_table field) (fi_schema field) (fi_name field)
  = [r1] →
  let rows2 :=
    q_referenced conn (kr_constraint_name r1) (kr_constraint_schema r1) in
  (∀ row, rows2 = [row] →
     ∃ ref, references repr_str conn field = Ok (Some ref) ∧
            ref !! "type"
            = Some (PyStr ("'reference " +:+ ur_table_schema row +:+ "."
                           +:+ ur_table_name row +:+ "'")))
  ∧ (∀ row, (1 < length rows2)%nat →
       1 ≤ kr_ordinal_position r1 →
       rows2 !! Z.to_nat (kr_ordinal_position r1 - 1) = Some row →
       ∃ ref, references repr_str conn field = Ok (Some ref) ∧
              ref !! "type"
              = Some (PyStr ("'reference " +:+ ur_table_schema row +:+ "."
                             +:+ ur_table_name row +:+ "."
                             +:+ ur_column_name row +:+ "'"))).
Proof.
  intros Hrows1. cbv zeta. unfold references. rewrite Hrows1.
  cbn [length Nat.eqb]. cbv beta iota zeta. split.
  - intros row ->. cbn [length Nat.ltb Nat.leb Nat.eqb]. cbv beta iota.
    destruct (negb _); eexists; (split; [reflexivity|]).
    + rewrite lookup_insert_ne by done. apply lookup_singleton_eq.
    + apply lookup_singleton_eq.
  - intros row Hlen Hord Hrow.
    assert ((1 <? length (q_referenced conn (kr_constraint_name r1)
                            (kr_constraint_schema r1)))%nat = true) as ->
      by (apply Nat.ltb_lt; lia).
    rewrite (py_index_in_range _ _ row) by (done || lia).
    assert ((length (q_referenced conn (kr_constraint_name r1)
                       (kr_constraint_schema r1)) =? 1)%nat = false) as ->
      by (apply Nat.eqb_neq; lia).
    cbv beta iota.
    destruct (negb _); eexists; (split; [reflexivity|]).
    + rewrite lookup_insert_ne by done. apply lookup_singleton_eq.
    + apply lookup_singleton_eq.
Qed.

Lemma references_unkeyed_or_keyed_witness :
  (∃ ref, references Sample.repr_str
            (Sample.catalog [Sample.payment_id] [Sample.customer_fk]
               [Sample.customer_id])
            (Sample.field_of Sample.payment_id) = Ok (Some ref)
          ∧ ref !! "type" = Some (PyStr "'reference public.customer'"))
  ∧ (∃ ref, references Sample.repr_str
              (Sample.catalog [Sample.payment_id] [Sample.rental_fk]
                 [Sample.rental_store; Sample.rental_no])
              (Sample.field_of Sample.payment_id) = Ok (Some ref)
            ∧ ref !! "type"
              = Some (PyStr "'reference public.rental.rental_no'")).
Proof.
  split.
  - apply (proj1 (references_unkeyed_or_keyed Sample.repr_str
                    (Sample.catalog [Sample.payment_id] [Sample.customer_fk]
                       [Sample.customer_id])
                    (Sample.field_of Sample.payment_id) Sample.customer_fk
                    eq_refl) Sample.customer_id).
    reflexivity.
  - apply (proj2 (references_unkeyed_or_keyed Sample.repr_str
                    (Sample.catalog [Sample.payment_id] [Sample.rental_fk]
                       [Sample.rental_store; Sample.rental_no])
                    (Sample.field_of Sample.payment_id) Sample.rental_fk
                    eq_refl) Sample.rental_no).
    + simpl. lia.
    + simpl. lia.
    + reflexivity.
Defined.

(** C4, as the code has it. With one referential constraint for the column
    and no row on its referenced side, [references] ends without a value
    and without an exception: the column has no reference. The [raise] of
    line 341 is under [elif rows2], which an empty [rows2] does not
    pass. *)
Theorem references_empty_referenced_side
    (repr_str : string → string) (conn : connection) (field : FieldInfo)
    (r1 : key_row) :
  q_referencing conn (fi_table field) (fi_schema field) (fi_name field)
  = [r1] →
  q_referenced conn (kr_constraint_name r1) (kr_constraint_schema r1) = [] →
  references repr_str conn field = Ok None.
Proof.
  intros H1 H2. unfold references. rewrite H1. cbn [length Nat.eqb].
  cbv beta iota zeta. by rewrite H2.
Qed.

Lemma references_empty_referenced_side_witness :
  references Sample.repr_str
    (Sample.catalog [Sample.payment_id] [Sample.customer_fk] [])
    (Sample.field_of Sample.payment_id) = Ok None.
Proof.
  apply (references_empty_referenced_side Sample.repr_str
           (Sample.catalog [Sample.payment_id] [Sample.customer_fk] [])
           (Sample.field_of Sample.payment_id) Sample.customer_fk);
    reflexivity.
Defined.

(** C4, as the claim has it, fails: the column [payment_id] is the
    referencing side of one constraint whose referenced side has no row,
    and neither [references] nor [define_field] raises; the field is
    resolved from its catalog type. *)
Lemma empty_referenced_side_is_not_fatal :
  q_referencing (Sample.catalog [Sample.amount] [Sample.customer_fk] [])
    "payment" "public" "payment_id" = [Sample.customer_fk]
  ∧ q_referenced (Sample.catalog [Sample.amount] [Sample.customer_fk] [])
      "payment_customer_fkey" "public" = []
  ∧ references Sample.repr_str
      (Sample.catalog [Sample.amount] [Sample.customer_fk] [])
      (Sample.field_of Sample.payment_id) = Ok None
  ∧ is_ok (define_field Sample.eval_repr Sample.repr_str
             (Sample.catalog [Sample.amount] [Sample.customer_fk] [])
             (Sample.field_of Sample.payment_id) ["payment_id"]
             initial_state) = true.
Proof. repeat split; reflexivity. Qed.

(** ** The blocks of [define_field] *)

Section Blocks.

Variable eval_repr : string → eval_outcome.
Variable repr_str : string → string.

Lemma truthy_nonempty (s : string) : s ≠ "" → truthy (PyStr s) = true.
Proof. by destruct s. Qed.

Lemma default_value_other_keys field f f2 k :
  default_value eval_repr field f = Ok f2 → k ≠ "default" →
  f2 !! k = f !! k.
Proof.
  unfold default_value. intros H Hk.
  repeat match type of H with
         | context [match ?x with _ => _ end] => destruct x
         end;
    try discriminate; injection H as <-; try done;
    by rewrite lookup_insert_ne.
Qed.

Lemma default_value_supported field f :
  default_supported eval_repr field = true →
  ∃ f2, default_value eval_repr field f = Ok f2.
Proof.
  unfold default_supported, default_value.
  repeat match goal with
         | |- context [match ?x with _ => _ end] =>
             lazymatch type of x with
             | bool => destruct x
             | option _ => destruct x
             | eval_outcome => destruct x
             end
         end;
    try discriminate; eauto.
Qed.

Lemma notnull_value_other_keys field f k :
  k ≠ "notnull" → notnull_value field f !! k = f !! k.
Proof.
  intros Hk. unfold notnull_value.
  destruct (negb _); [by rewrite lookup_insert_ne | done].
Qed.

Lemma comment_value_other_keys conn field f k :
  k ≠ "comment" → comment_value repr_str conn field f !! k = f !! k.
Proof.
  intros Hk. unfold comment_value.
  destruct (get_comment _ _); [by rewrite lookup_insert_ne | done].
Qed.

(** Once the type block is through and the default is supported, the
    field is resolved, and the later blocks leave the keys of the type
    block alone. *)
Lemma field_value_after_type conn field pks d0 f1 :
  type_value repr_str conn field pks d0 = Ok f1 →
  default_supported eval_repr field = true →
  ∃ f, field_value eval_repr repr_str conn field pks d0 = Ok f ∧
       ∀ k, k ≠ "default" → k ≠ "notnull" → k ≠ "comment" →
            f !! k = f1 !! k.
Proof.
  intros Ht Hd. unfold field_value. rewrite Ht.
  destruct (default_value_supported field f1 Hd) as [f2 Hf2]. rewrite Hf2.
  eexists. split; [reflexivity|]. intros k H1 H2 H3.
  rewrite comment_value_other_keys, notnull_value_other_keys by done.
  by apply (default_value_other_keys field).
Qed.

(** The type block of a column that is neither a reference nor an
    identity, by catalog type. *)
Lemma type_value_by_catalog conn field pks f :
  references repr_str conn field = Ok None →
  identity_override field pks = false →
  (cr_data_type (fi_data field) = "timestamp"
   ∨ cr_data_type (fi_data field) = "timestamp without time zone" →
   type_value repr_str conn field pks f
   = Ok (<["type" := PyStr "'datetime'"]> f))
  ∧ (cr_data_type (fi_data field) = "timestamp with time zone" →
     type_value repr_str conn field pks f
     = Err (DataTypeNotSupported (fi_schema field) (fi_table field)
              (fi_name field) "timestamp with time zone")).
Proof.
  intros Href Hid. unfold type_value, identity_override in *.
  rewrite Href. cbn [ref_if_true]. cbv zeta. rewrite Hid.
  split; [intros [-> | ->] | intros ->]; reflexivity.
Qed.

End Blocks.

(** ** Catalog types *)

(** C6, as the code has it. For a column that is neither a reference nor
    an identity: the catalog types [timestamp] and
    [timestamp without time zone] give the type ['datetime'] (when the
    default is supported, the field is resolved with it), and the catalog
    type [timestamp with time zone] is in no branch of the dispatch, so
    [define_field] raises the unsupported-type error. *)
Theorem timestamp_without_time_zone_only
    (eval_repr : string → eval_outcome) (repr_str : string → string)
    (conn : connection) (field : FieldInfo) (pks : list string)
    (st : state) (d0 : fdict) :
  heap st !! fi_definitions field = Some d0 →
  references repr_str conn field = Ok None →
  identity_override field pks = false →
  (cr_data_type (fi_data field) = "timestamp"
   ∨ cr_data_type (fi_data field) = "timestamp without time zone" →
   default_supported eval_repr field = true →
   ∃ f, define_field eval_repr repr_str conn field pks st
        = Ok (length (heap st),
              {| heap := heap st ++ [f]; out := out st |})
        ∧ f !! "type" = Some (PyStr "'datetime'"))
  ∧ (cr_data_type (fi_data field) = "timestamp with time zone" →
     define_field eval_repr repr_str conn field pks st
     = Err (DataTypeNotSupported (fi_schema field) (fi_table field)
              (fi_name field) "timestamp with time zone")).
Proof.
  intros Hd0 Href Hid. rewrite define_field_run, Hd0.
  destruct (type_value_by_catalog repr_str conn field pks d0 Href Hid)
    as [Hwithout Hwith].
  split.
  - intros Hdt Hsup.
    destruct (field_value_after_type eval_repr repr_str conn field pks d0 _
                (Hwithout Hdt) Hsup) as (f & -> & Hkeys).
    exists f. split; [reflexivity|].
    rewrite Hkeys by done. apply lookup_insert_eq.
  - intros Hdt. unfold field_value. by rewrite (Hwith Hdt).
Qed.

Lemma timestamp_without_time_zone_only_witness :
  ∃ f, define_field Sample.eval_repr Sample.repr_str
         (Sample.catalog [Sample.paid] [] []) (Sample.field_of Sample.paid)
         ["payment_id"] initial_state
       = Ok (1%nat, {| heap := [∅; f]; out := [] |})
       ∧ f !! "type" = Some (PyStr "'datetime'").
Proof.
  apply (proj1 (timestamp_without_time_zone_only Sample.eval_repr
                  Sample.repr_str (Sample.catalog [Sample.paid] [] [])
                  (Sample.field_of Sample.paid) ["payment_id"]
                  initial_state ∅ eq_refl eq_refl eq_refl)).
  - right. reflexivity.
  - reflexivity.
Defined.

(** C6, as the claim has it, fails: a column of catalog type
    [timestamp with time zone], no reference, no identity, is not given
    ['datetime']; [define_field] raises. *)
Lemma timestamp_with_time_zone_unsupported :
  references Sample.repr_str (Sample.catalog [Sample.paid_tz] [] [])
    (Sample.field_of Sample.paid_tz) = Ok None
  ∧ identity_override (Sample.field_of Sample.paid_tz) ["payment_id"]
    = false
  ∧ define_field Sample.eval_repr Sample.repr_str
      (Sample.catalog [Sample.paid_tz] [] [])
      (Sample.field_of Sample.paid_tz) ["payment_id"] initial_state
    = Err (DataTypeNotSupported "public" "payment" "paid"
             "timestamp with time zone").
Proof. repeat split; reflexivity. Qed.

(** ** Defaults *)

(** C7. For a column with a non-empty default expression, once the type
    block is through: [now()] gives the default [request.now], [true] and
    [false] give [True] and [False], any other text goes to [eval] and
    the default is the [repr] of its value; when [eval] raises a
    [ValueError] or a [SyntaxError] the field is resolved with its
    default as the type block left it (not written); when [eval] raises
    another [Exception], [define_field] raises the unsupported-default
    error that carries the text. *)
Theorem default_translation
    (eval_repr : string → eval_outcome) (repr_str : string → string)
    (conn : connection) (field : FieldInfo) (pks : list string)
    (st : state) (d0 f1 : fdict) (d : string) :
  heap st !! fi_definitions field = Some d0 →
  type_value repr_str conn field pks d0 = Ok f1 →
  cr_column_default (fi_data field) = Some d →
  d ≠ "" →
  let run := define_field eval_repr repr_str conn field pks st in
  let resolved_with (default : option pyval) :=
    ∃ f, run = Ok (length (heap st),
                   {| heap := heap st ++ [f]; out := out st |})
         ∧ f !! "default" = default in
  (d = "now()" → resolved_with (Some (PyStr "request.now")))
  ∧ (d = "true" → resolved_with (Some (PyStr "True")))
  ∧ (d = "false" → resolved_with (Some (PyStr "False")))
  ∧ (d ≠ "now()" → d ≠ "true" → d ≠ "false" →
     (∀ r, eval_repr d = Evaluated r → resolved_with (Some (PyStr r)))
     ∧ (∀ e, eval_repr d = Raised e →
             is_ValueError_or_SyntaxError e = true →
             resolved_with (f1 !! "default"))
     ∧ (∀ e, eval_repr d = Raised e →
             is_ValueError_or_SyntaxError e = false →
             is_Exception e = true →
             run = Err (DefaultUnsupported d))).
Proof.
  intros Hd0 Ht Hd Hne. cbv zeta.
  rewrite define_field_run, Hd0. unfold field_value. rewrite Ht.
  unfold default_value. rewrite Hd, (truthy_nonempty d Hne).
  assert (∀ f2 : fdict,
    comment_value repr_str conn field (notnull_value field f2) !! "default"
    = f2 !! "default") as Hlater.
  { intros f2.
    by rewrite comment_value_other_keys, notnull_value_other_keys. }
  repeat split.
  - intros ->. cbn [String.eqb Ascii.eqb Bool.eqb]. cbv beta iota.
    eexists. split; [reflexivity|]. rewrite Hlater. apply lookup_insert_eq.
  - intros ->. cbn [String.eqb Ascii.eqb Bool.eqb]. cbv beta iota.
    eexists. split; [reflexivity|]. rewrite Hlater. apply lookup_insert_eq.
  - intros ->. cbn [String.eqb Ascii.eqb Bool.eqb]. cbv beta iota.
    eexists. split; [reflexivity|]. rewrite Hlater. apply lookup_insert_eq.
  - intros r Hr. apply String.eqb_neq in H, H0, H1. rewrite H, H0, H1, Hr.
    eexists. split; [reflexivity|]. rewrite Hlater. apply lookup_insert_eq.
  - intros e He Hvs. apply String.eqb_neq in H, H0, H1.
    rewrite H, H0, H1, He, Hvs.
    eexists. split; [reflexivity|]. by rewrite Hlater.
  - intros e He Hvs Hex. apply String.eqb_neq in H, H0, H1.
    by rewrite H, H0, H1, He, Hvs, Hex.
Qed.

Lemma default_translation_witness :
  (∃ f, define_field Sample.eval_repr Sample.repr_str
          (Sample.catalog [Sample.paid] [] []) (Sample.field_of Sample.paid)
          ["payment_id"] initial_state
        = Ok (1%nat, {| heap := [∅; f]; out := [] |})
        ∧ f !! "default" = Some (PyStr "request.now"))
  ∧ define_field Sample.eval_repr Sample.repr_str
      (Sample.catalog [] [] [])
      (Sample.field_of
         (Sample.column "payment" "rate" "integer" (PyStr "YES") PyNone
            PyNone (Some "1/0")))
      ["payment_id"] initial_state
    = Err (DefaultUnsupported "1/0").
Proof.
  split.
  - pose proof (default_translation Sample.eval_repr Sample.repr_str
                  (Sample.catalog [Sample.paid] [] [])
                  (Sample.field_of Sample.paid) ["payment_id"]
                  initial_state
                  ∅ (<["type" := PyStr "'datetime'"]> ∅) "now()"
                  eq_refl eq_refl eq_refl ltac:(discriminate)) as H.
    cbv zeta in H. destruct H as [H _]. apply H. reflexivity.
  - pose proof (default_translation Sample.eval_repr Sample.repr_str
                  (Sample.catalog [] [] [])
                  (Sample.field_of
                     (Sample.column "payment" "rate" "integer" (PyStr "YES")
                        PyNone PyNone (Some "1/0")))
                  ["payment_id"] initial_state
                  ∅ (<["type" := PyStr "'integer'"]> ∅) "1/0"
                  eq_refl eq_refl eq_refl ltac:(discriminate)) as H.
    cbv zeta in H. destruct H as (_ & _ & _ & H).
    destruct (H ltac:(discriminate) ltac:(discriminate) ltac:(discriminate))
      as (_ & _ & H3).
    apply (H3 ZeroDivisionError); reflexivity.
Defined.

(** ** The not-null flag *)

(** C8, evaluated. The column [amount numeric(10,2) NOT NULL], for which
    the catalog gives [is_nullable = 'NO']: the field is printed with
    [type='decimal(10,2)'] and without [notnull=True], since ['NO'] is a
    non-empty string and so true as a condition. Had the value been the
    boolean [False], the line would have been the one of the scenario. *)
Theorem notnull_lost_for_NO :
  printed (define_table Sample.eval_repr Sample.repr_str
             (Sample.catalog [Sample.amount] [] []) Sample.payment
             initial_state)
  = Ok [ "db.define_table('payment',";
         "    rname='public.payment',";
         "    Field('amount', type='decimal(10,2)'),";
         "    primarykey=['payment_id'],";
         "    migrate=migrate)";
         "" ]
  ∧ printed (define_table Sample.eval_repr Sample.repr_str
               (Sample.catalog [Sample.amount_bool] [] []) Sample.payment
               initial_state)
    = Ok [ "db.define_table('payment',";
           "    rname='public.payment',";
           "    Field('amount', type='decimal(10,2)', notnull=True),";
           "    primarykey=['payment_id'],";
           "    migrate=migrate)";
           "" ].
Proof. split; vm_compute; reflexivity. Qed.

(** ** The loop over the fields *)

Section Loop.

Variable eval_repr : string → eval_outcome.
Variable repr_str : string → string.

(** One turn of the loop of [define_table]. *)
Lemma define_fields_step conn field fields pks st :
  define_fields eval_repr repr_str conn (field :: fields) pks st
  = match heap st !! fi_definitions field with
    | None => Err InvalidReference
    | Some d0 =>
        match field_value eval_repr repr_str conn field pks d0 with
        | Err e => Err e
        | Ok f =>
            match unique_value conn field pks f !! "type" with
            | None => Err (KeyError "type")
            | Some type =>
                define_fields eval_repr repr_str conn fields
                  (pks_after field pks type)
                  {| heap := heap st ++ [unique_value conn field pks f];
                     out := out st
                            ++ [field_line field
                                  (unique_value conn field pks f)] |}
            end
        end
    end.
Proof.
  cbn [define_fields]. unfold bind at 1. rewrite define_field_run.
  destruct (heap st !! fi_definitions field) as [d0|]; [|reflexivity].
  destruct (field_value _ _ _ _ _ _) as [f|e]; [|reflexivity].
  destruct st as [h o]. cbn [heap out].
  unfold bind, ret, print, unique_value, pks_after, field_line.
  destruct (negb _ && _); run_on_copy; reflexivity.
Qed.

Lemma references_has_type conn field ref r :
  references repr_str conn field = Ok ref →
  ref_if_true ref = Some r →
  is_Some (r !! "type").
Proof.
  unfold references, ref_if_true. intros H Hr.
  destruct ref as [r'|]; [|discriminate].
  destruct (bool_decide _); [discriminate|]. injection Hr as ->.
  repeat match type of H with
         | context [match ?x with _ => _ end] => destruct x
         end;
    try discriminate; injection H as <-;
    rewrite ?lookup_insert_ne by done; rewrite lookup_singleton_eq; eauto.
Qed.

Lemma type_value_has_type conn field pks d0 f1 :
  type_value repr_str conn field pks d0 = Ok f1 → is_Some (f1 !! "type").
Proof.
  unfold type_value. intros H.
  destruct (references repr_str conn field) as [ref|] eqn:Href;
    [|discriminate].
  destruct (ref_if_true ref) as [r|] eqn:Hr.
  - injection H as <-.
    destruct (references_has_type _ _ _ _ Href Hr) as [v Hv].
    exists v. by apply lookup_union_Some_l.
  - cbv zeta in H.
    repeat match type of H with
           | context [match ?x with _ => _ end] =>
               lazymatch type of x with
               | bool => destruct x
               | option _ => destruct x
               end
           end;
      try discriminate; injection H as <-;
      rewrite ?(lookup_insert_ne _ "length") by done;
      rewrite lookup_insert_eq; eauto.
Qed.

Lemma unique_value_other_keys conn field pks f k :
  k ≠ "unique" → unique_value conn field pks f !! k = f !! k.
Proof.
  intros Hk. unfold unique_value.
  destruct (negb _ && _); [by rewrite lookup_insert_ne | done].
Qed.

Lemma field_value_type conn field pks d0 f :
  field_value eval_repr repr_str conn field pks d0 = Ok f →
  ∃ f1, type_value repr_str conn field pks d0 = Ok f1 ∧
        f !! "type" = f1 !! "type" ∧ is_Some (f !! "type").
Proof.
  unfold field_value. intros H.
  destruct (type_value _ _ _ _ _) as [f1|] eqn:Ht; [|discriminate].
  destruct (default_value _ _ _) as [f2|] eqn:Hd; [|discriminate].
  injection H as <-. exists f1.
  assert (comment_value repr_str conn field (notnull_value field f2)
            !! "type" = f1 !! "type") as E.
  { rewrite comment_value_other_keys, notnull_value_other_keys by done.
    by apply (default_value_other_keys eval_repr field). }
  repeat split; [done|]. rewrite E. by eapply type_value_has_type.
Qed.

End Loop.

(** ** The shared [definitions] are only read *)

Lemma get_generateInfo_from_in re_match filters subject g :
  get_generateInfo_from re_match filters subject = Ok (Some g) →
  ∃ patterns, (patterns, Some g) ∈ filters.
Proof.
  induction filters as [|[patterns directive] filters IH]; simpl;
    [discriminate|].
  intros H.
  destruct (length patterns =? length subject)%nat;
    [destruct (is_filter_match re_match patterns subject) as [[|]|]|].
  - injection H as ->. exists patterns. left.
  - destruct (IH H) as [p Hp]. exists p. by right.
  - discriminate.
  - destruct (IH H) as [p Hp]. exists p. by right.
Qed.

Lemma fields_of_rows_shape table rows fields :
  fields_of_rows table rows = Ok fields →
  Forall (λ g, fi_definitions g = default_definitions
               ∧ cr_column_name (fi_data g) = fi_name g) fields.
Proof.
  revert fields. induction rows as [|row rows IH]; simpl; intros fields H.
  - injection H as <-. constructor.
  - destruct (get_generateInfo _) as [[[prefix|definitions]|]|] eqn:Hg;
      try discriminate; [|by apply IH].
    destruct (fields_of_rows table rows) as [result|]; [|discriminate].
    injection H as <-. constructor; [|by apply IH]. split; [|reflexivity].
    cbn [fi_definitions].
    destruct (get_generateInfo_from_in _ _ _ _ Hg) as [p Hp].
    unfold FILTERS in Hp.
    repeat (apply elem_of_cons in Hp as [Hp|Hp]; [congruence|]).
    by apply elem_of_nil in Hp.
Qed.

Section Frame.

Variable eval_repr : string → eval_outcome.
Variable repr_str : string → string.

Lemma define_field_extends conn field pks st f st' :
  define_field eval_repr repr_str conn field pks st = Ok (f, st') →
  ∃ d0 fdef, heap st !! fi_definitions field = Some d0 ∧
             field_value eval_repr repr_str conn field pks d0 = Ok fdef ∧
             f = length (heap st) ∧
             st' = {| heap := heap st ++ [fdef]; out := out st |}.
Proof.
  rewrite define_field_run. intros H.
  destruct (heap st !! fi_definitions field) as [d0|]; [|discriminate].
  destruct (field_value _ _ _ _ _ _) as [fdef|] eqn:Hf; [|discriminate].
  injection H as <- <-. exists d0, fdef. repeat split. exact Hf.
Qed.

Lemma define_fields_extends conn fields :
  ∀ pks st pks' st',
    define_fields eval_repr repr_str conn fields pks st = Ok (pks', st') →
    ∃ fs, heap st' = heap st ++ fs.
Proof.
  induction fields as [|field fields IH]; intros pks st pks' st' H.
  - injection H as <- <-. exists []. by rewrite app_nil_r.
  - rewrite define_fields_step in H.
    destruct (heap st !! fi_definitions field); [|discriminate].
    destruct (field_value _ _ _ _ _ _); [|discriminate].
    destruct (_ !! "type"); [|discriminate].
    destruct (IH _ _ _ _ H) as [fs Hfs]. cbn [heap] in Hfs.
    eexists. by rewrite Hfs, <- app_assoc.
Qed.

Lemma define_table_extends conn table st u st' :
  define_table eval_repr repr_str conn table st = Ok (u, st') →
  ∃ fs, heap st' = heap st ++ fs.
Proof.
  unfold define_table, bind, lift, print, ret. intros H.
  destruct (get_fields conn table); [|discriminate].
  cbn [heap out] in H.
  destruct (define_fields _ _ _ _ _ _) as [[pks' st1]|] eqn:Hrun;
    [|discriminate].
  apply define_fields_extends in Hrun as [fs Hfs]. cbn [heap] in Hfs.
  exists fs. by destruct pks'; injection H as _ <-.
Qed.

End Frame.

(** C10. [define_field] writes to a mapping of its own: the location it
    returns is not one of the store it started from, every mapping of
    that store is the same afterwards, and a field that shares the
    [definitions] of the resolved one is resolved to the same mapping
    after it as before it. The same holds over the loop of a table. All
    fields of [get_fields] hold the one default mapping of
    [FieldGenerateInfo], and that mapping is still empty after a table
    has been generated from the initial store. *)
Theorem definitions_never_mutated
    (eval_repr : string → eval_outcome) (repr_str : string → string)
    (conn : connection) :
  (∀ field pks st f st',
     define_field eval_repr repr_str conn field pks st = Ok (f, st') →
     heap st !! f = None
     ∧ (∀ l d, heap st !! l = Some d → heap st' !! l = Some d)
     ∧ (∀ other pks2,
          fi_definitions other = fi_definitions field →
          mapping_of (define_field eval_repr repr_str conn other pks2 st')
          = mapping_of (define_field eval_repr repr_str conn other pks2 st)))
  ∧ (∀ fields pks st pks' st',
       define_fields eval_repr repr_str conn fields pks st = Ok (pks', st') →
       ∀ l d, heap st !! l = Some d → heap st' !! l = Some d)
  ∧ (∀ table fields,
       get_fields conn table = Ok fields →
       Forall (λ g, fi_definitions g = default_definitions) fields)
  ∧ (∀ table st',
       define_table eval_repr repr_str conn table initial_state
       = Ok (tt, st') →
       heap st' !! default_definitions = Some ∅).
Proof.
  repeat split.
  - apply define_field_extends in H as (d0 & fdef & _ & _ & -> & _).
    by apply lookup_ge_None_2.
  - intros l d Hl.
    apply define_field_extends in H as (d0 & fdef & _ & _ & _ & ->).
    by apply lookup_app_l_Some.
  - intros other pks2 Hsame.
    apply define_field_extends in H as (d0 & fdef & Hd0 & _ & _ & ->).
    rewrite !define_field_run. cbn [heap out]. rewrite Hsame.
    rewrite (lookup_app_l_Some _ _ _ _ Hd0), Hd0.
    destruct (field_value _ _ _ _ _ _); [|reflexivity].
    unfold mapping_of. cbn [heap]. by rewrite !lookup_last.
  - intros fields pks st pks' st' H l d Hl.
    apply define_fields_extends in H as [fs ->].
    by apply lookup_app_l_Some.
  - intros table fields H. unfold get_fields in H.
    apply fields_of_rows_shape in H.
    eapply Forall_impl; [exact H|]. by intros g [? _].
  - intros table st' H.
    apply define_table_extends in H as [fs ->]. reflexivity.
Qed.

Lemma definitions_never_mutated_witness :
  heap initial_state !! 1%nat = None
  ∧ [∅; <["type" := PyStr "'decimal(10,2)'"]>
          (<["scale" := PyInt 2]> (<["precision" := PyInt 10]> ∅))]
    !! default_definitions = Some (∅ : fdict).
Proof.
  pose proof (definitions_never_mutated Sample.eval_repr Sample.repr_str
                (Sample.catalog [Sample.amount] [] [])) as [H _].
  specialize (H (Sample.field_of Sample.amount) ["payment_id"] initial_state
                1%nat
                {| heap := [∅; <["type" := PyStr "'decimal(10,2)'"]>
                                 (<["scale" := PyInt 2]>
                                    (<["precision" := PyInt 10]> ∅))];
                   out := [] |}).
  destruct (H ltac:(vm_compute; reflexivity)) as (H1 & H2 & _).
  split; [exact H1 | exact (H2 default_definitions ∅ eq_refl)].
Defined.

(** ** The identity override *)

Section Identity.

Variable eval_repr : string → eval_outcome.
Variable repr_str : string → string.

Lemma nextval_not_literal d :
  String.prefix "nextval" d = true →
  d ≠ "" ∧ String.eqb d "now()" = false ∧ String.eqb d "true" = false
  ∧ String.eqb d "false" = false.
Proof.
  intros H. repeat split.
  - intros ->. discriminate.
  - destruct (String.eqb d "now()") eqn:E; [|done].
    apply String.eqb_eq in E. subst. discriminate.
  - destruct (String.eqb d "true") eqn:E; [|done].
    apply String.eqb_eq in E. subst. discriminate.
  - destruct (String.eqb d "false") eqn:E; [|done].
    apply String.eqb_eq in E. subst. discriminate.
Qed.

(** A sequence default on a primary-key column without a reference: the
    type is ['id']. *)
Lemma identity_field_value conn c pks d0 d :
  cr_column_default (fi_data c) = Some d →
  String.prefix "nextval" d = true →
  py_in (cr_column_name (fi_data c)) pks = true →
  references repr_str conn c = Ok None →
  (∀ e, eval_repr d = Raised e → is_ValueError_or_SyntaxError e = true) →
  ∃ f, field_value eval_repr repr_str conn c pks d0 = Ok f ∧
       f !! "type" = Some (PyStr "'id'").
Proof.
  intros Hd Hnext Hpk Href Heval.
  destruct (nextval_not_literal d Hnext) as (Hne & Hnow & Htrue & Hfalse).
  assert (type_value repr_str conn c pks d0
          = Ok (<["type" := PyStr "'id'"]> d0)) as Ht.
  { unfold type_value. rewrite Href. cbn [ref_if_true]. cbv zeta.
    by rewrite Hd, (truthy_nonempty d Hne), Hnext, Hpk. }
  assert (default_supported eval_repr c = true) as Hsup.
  { unfold default_supported, default_value.
    rewrite Hd, (truthy_nonempty d Hne), Hnow, Htrue, Hfalse.
    destruct (eval_repr d) as [r|e] eqn:He; [reflexivity|].
    by rewrite (Heval e). }
  destruct (field_value_after_type eval_repr repr_str conn c pks d0 _ Ht Hsup)
    as (f & Hf & Hkeys).
  exists f. split; [exact Hf|]. rewrite Hkeys by done. apply lookup_insert_eq.
Qed.

(** Fields that are not in the primary keys, and are resolved, leave the
    primary keys as they are; each prints its line. *)
Lemma define_fields_others conn gs :
  ∀ pks st,
    Forall (λ g, py_in (fi_name g) pks = false) gs →
    Forall (resolvable eval_repr repr_str conn) gs →
    Forall (λ g, is_Some (heap st !! fi_definitions g)) gs →
    ∃ fs lines,
      Forall2 (λ g line, ∃ fdef, line = field_line g fdef) gs lines ∧
      ∀ rest,
        define_fields eval_repr repr_str conn (gs ++ rest) pks st
        = define_fields eval_repr repr_str conn rest pks
            {| heap := heap st ++ fs; out := out st ++ lines |}.
Proof.
  induction gs as [|g gs IH]; intros pks st Hpk Hres Hval.
  - exists [], []. split; [constructor|]. intros rest.
    rewrite !app_nil_r. by destruct st.
  - inversion Hpk as [|? ? Hg Hpk']; subst.
    inversion Hres as [|? ? Hr Hres']; subst.
    inversion Hval as [|? ? Hv Hval']; subst.
    specialize (Hr pks st Hv). rewrite define_field_run in Hr.
    destruct Hv as [d0 Hd0]. rewrite Hd0 in Hr.
    destruct (field_value eval_repr repr_str conn g pks d0) as [f|] eqn:Hf;
      [|discriminate].
    destruct (field_value_type _ _ _ _ _ _ _ Hf) as (_ & _ & _ & [ty Hty]).
    set (fdef := unique_value conn g pks f).
    assert (fdef !! "type" = Some ty) as Htype
      by (unfold fdef; by rewrite unique_value_other_keys).
    assert (pks_after g pks ty = pks) as Hsame
      by (unfold pks_after; by rewrite Hg, andb_false_r).
    destruct (IH pks {| heap := heap st ++ [fdef];
                        out := out st ++ [field_line g fdef] |} Hpk' Hres')
      as (fs & lines & Hlines & Hrun).
    { eapply Forall_impl; [exact Hval'|]. intros g' [d Hd]. exists d.
      by apply lookup_app_l_Some. }
    exists (fdef :: fs), (field_line g fdef :: lines). split.
    + constructor; [by exists fdef | exact Hlines].
    + intros rest. cbn [app]. rewrite define_fields_step, Hd0, Hf.
      fold fdef. rewrite Htype, Hsame, Hrun. cbn [heap out].
      by rewrite <- !app_assoc.
Qed.

Lemma omap_first {A B} (g : A → option B) (x : A) (xs : list A) :
  omap g (x :: xs)
  = match g x with Some y => y :: omap g xs | None => omap g xs end.
Proof. reflexivity. Qed.

Lemma append_empty (s : string) : s +:+ "" = s.
Proof.
  induction s as [|c s IH]; [reflexivity|].
  change (String c (s +:+ "") = String c s). by f_equal.
Qed.

Lemma append_append (s1 s2 s3 : string) :
  (s1 +:+ s2) +:+ s3 = s1 +:+ s2 +:+ s3.
Proof.
  induction s1 as [|c s1 IH]; [reflexivity|].
  change (String c ((s1 +:+ s2) +:+ s3) = String c (s1 +:+ s2 +:+ s3)).
  by f_equal.
Qed.

Lemma kwargs_text_type (f : fdict) (s : string) :
  f !! "type" = Some (PyStr s) → s ≠ "" →
  ∃ rest, kwargs_text f = "type=" +:+ s +:+ rest.
Proof.
  intros Hf Hs. unfold kwargs_text, KWARGS. rewrite omap_first.
  rewrite Hf, (truthy_nonempty s Hs). cbn [py_str].
  destruct (omap _ _) as [|x l].
  - exists "". cbn [join]. by rewrite append_empty.
  - exists (", " +:+ join ", " (x :: l)).
    change (join ", " (("type" +:+ "=" +:+ s) :: x :: l))
      with (("type=" +:+ s) +:+ ", " +:+ join ", " (x :: l)).
    by rewrite append_append.
Qed.

Lemma py_in_singleton x y : x ≠ y → py_in x [y] = false.
Proof.
  intros H. unfold py_in. cbn [existsb].
  by rewrite orb_false_r, String.eqb_neq.
Qed.

End Identity.

(** C5, as the code has it. A column with a sequence default that is the
    only member of the primary key, that is among the fields of its table
    and that has no foreign-key reference (its default being one [eval]
    fails on with a [SyntaxError] or a [ValueError], or evaluates): when
    the other fields of the table are resolvable, the table is generated,
    the line of the column carries [type='id'], and there is no
    [primarykey=[...]] line: after the table header come the field lines
    only, then [migrate=migrate)]. *)
Theorem identity_override_round_trip
    (eval_repr : string → eval_outcome) (repr_str : string → string)
    (conn : connection) (table : TableInfo) (st : state)
    (pre post : list FieldInfo) (c : FieldInfo) (d : string) :
  get_fields conn table = Ok (pre ++ c :: post) →
  Forall (λ g, fi_name g ≠ fi_name c) pre →
  primarykeys conn table = [fi_name c] →
  cr_column_default (fi_data c) = Some d →
  String.prefix "nextval" d = true →
  references repr_str conn c = Ok None →
  (∀ e, eval_repr d = Raised e → is_ValueError_or_SyntaxError e = true) →
  Forall (resolvable eval_repr repr_str conn) (pre ++ post) →
  is_Some (heap st !! default_definitions) →
  ∃ lines rest st',
    define_table eval_repr repr_str conn table st = Ok (tt, st')
    ∧ out st'
      = out st
        ++ [ "db.define_table('" +:+ get_prefix table +:+ ti_name table
             +:+ "',";
             "    rname='" +:+ ti_schema table +:+ "." +:+ ti_name table
             +:+ "'," ]
        ++ lines ++ [ "    migrate=migrate)"; "" ]
    ∧ Forall2 (λ g line, ∃ fdef, line = field_line g fdef)
        (pre ++ c :: post) lines
    ∧ lines !! length pre
      = Some ("    Field('" +:+ fi_name c +:+ "', type='id'" +:+ rest).
Proof.
  intros Hget Hpre Hpks Hd Hnext Href Heval Hres [d0 Hd0].
  pose proof Hget as Hshape. unfold get_fields in Hshape.
  apply fields_of_rows_shape in Hshape.
  apply Forall_app in Hshape as [Hshape_pre Hshape_c].
  apply Forall_cons in Hshape_c as [[Hc_def Hc_name] Hshape_post].
  apply Forall_app in Hres as [Hres_pre Hres_post].
  set (P := fi_name c) in *.
  (* the fields before the column *)
  destruct (define_fields_others eval_repr repr_str conn pre [P]
              {| heap := heap st;
                 out := (out st
                         ++ ["db.define_table('" +:+ get_prefix table
                             +:+ ti_name table +:+ "',"])
                        ++ ["    rname='" +:+ ti_schema table +:+ "."
                            +:+ ti_name table +:+ "',"] |})
    as (fs1 & lines1 & Hlines1 & Hrun1).
  { eapply Forall_impl; [exact Hpre|]. intros g Hg.
    by apply py_in_singleton. }
  { exact Hres_pre. }
  { eapply Forall_impl; [exact Hshape_pre|]. intros g [-> _].
    by exists d0. }
  (* the column itself *)
  assert (py_in P [P] = true) as Hin
    by (unfold py_in; cbn [existsb]; by rewrite String.eqb_refl).
  destruct (identity_field_value eval_repr repr_str conn c [P] d0 d)
    as (f & Hf & Htype); try done.
  { by rewrite Hc_name. }
  assert (unique_value conn c [P] f = f) as Huniq
    by (unfold unique_value; fold P; by rewrite Hin).
  assert (pks_after c [P] (PyStr "'id'") = []) as Hafter.
  { unfold pks_after. fold P. rewrite Hin. cbn [py_eq_str].
    change (String.eqb "'id'" "'id'") with true.
    cbn [andb remove_first]. by rewrite String.eqb_refl. }
  (* the fields after it *)
  destruct (define_fields_others eval_repr repr_str conn post []
              {| heap := (heap st ++ fs1) ++ [f];
                 out := (((out st
                           ++ ["db.define_table('" +:+ get_prefix table
                               +:+ ti_name table +:+ "',"])
                          ++ ["    rname='" +:+ ti_schema table +:+ "."
                              +:+ ti_name table +:+ "',"])
                         ++ lines1) ++ [field_line c f] |})
    as (fs2 & lines2 & Hlines2 & Hrun2).
  { by apply Forall_true. }
  { exact Hres_post. }
  { eapply Forall_impl; [exact Hshape_post|]. intros g [-> _].
    exists d0. cbn [heap]. rewrite <- app_assoc. by apply lookup_app_l_Some. }
  specialize (Hrun2 []). rewrite app_nil_r in Hrun2.
  destruct (kwargs_text_type f "'id'" Htype) as [tail Htail]; [done|].
  exists (lines1 ++ field_line c f :: lines2), (tail +:+ "),").
  eexists. split; [|split; [|split]].
  - unfold define_table. unfold bind at 1. unfold lift. rewrite Hget.
    unfold bind, print, ret. cbn [heap out]. rewrite Hpks, Hrun1.
    rewrite define_fields_step. cbn [heap out].
    rewrite Hc_def, (lookup_app_l_Some _ _ _ _ Hd0), Hf, Huniq, Htype, Hafter.
    rewrite Hrun2. cbn [define_fields]. unfold ret. reflexivity.
  - cbn [out]. by rewrite <- !app_assoc.
  - apply Forall2_app; [exact Hlines1|].
    constructor; [by exists f | exact Hlines2].
  - rewrite lookup_app_r by (by rewrite (Forall2_length _ _ _ Hlines1)).
    rewrite (Forall2_length _ _ _ Hlines1), Nat.sub_diag. cbn [lookup list_lookup].
    unfold field_line. fold P. rewrite Htail, !append_append. reflexivity.
Qed.

Lemma paid_resolvable :
  resolvable Sample.eval_repr Sample.repr_str
    (Sample.catalog [Sample.payment_id; Sample.paid] [] [])
    (Sample.field_of Sample.paid).
Proof.
  intros pks st [d0 Hd0]. rewrite define_field_run, Hd0. reflexivity.
Qed.

Lemma identity_override_round_trip_witness :
  ∃ lines rest st',
    define_table Sample.eval_repr Sample.repr_str
      (Sample.catalog [Sample.payment_id; Sample.paid] [] [])
      Sample.payment initial_state = Ok (tt, st')
    ∧ out st'
      = [ "db.define_table('payment',"; "    rname='public.payment'," ]
        ++ lines ++ [ "    migrate=migrate)"; "" ]
    ∧ Forall2 (λ g line, ∃ fdef, line = field_line g fdef)
        [Sample.field_of Sample.payment_id; Sample.field_of Sample.paid]
        lines
    ∧ lines !! 0%nat = Some ("    Field('payment_id', type='id'" +:+ rest).
Proof.
  apply (identity_override_round_trip Sample.eval_repr Sample.repr_str
           (Sample.catalog [Sample.payment_id; Sample.paid] [] [])
           Sample.payment initial_state
           [] [Sample.field_of Sample.paid]
           (Sample.field_of Sample.payment_id)
           "nextval('payment_payment_id_seq'::regclass)").
  - reflexivity.
  - constructor.
  - reflexivity.
  - reflexivity.
  - reflexivity.
  - reflexivity.
  - intros e. vm_compute. intros [= <-]. reflexivity.
  - constructor; [exact paid_resolvable | constructor].
  - exists ∅. reflexivity.
Defined.

(** C5, as the claim has it, fails. The column [payment_id] has a
    sequence default and is the only member of the primary key; it is
    also the referencing side of a foreign key. Its type is the
    reference, not ['id'], and it is in the [primarykey=[...]] line. *)
Lemma identity_lost_to_reference :
  cr_column_default Sample.payment_id
  = Some "nextval('payment_payment_id_seq'::regclass)"
  ∧ primarykeys
      (Sample.catalog [Sample.payment_id] [Sample.customer_fk]
         [Sample.customer_id]) Sample.payment = ["payment_id"]
  ∧ printed (define_table Sample.eval_repr Sample.repr_str
               (Sample.catalog [Sample.payment_id] [Sample.customer_fk]
                  [Sample.customer_id]) Sample.payment initial_state)
    = Ok [ "db.define_table('payment',";
           "    rname='public.payment',";
           "    Field('payment_id', type='reference public.customer'),";
           "    primarykey=['payment_id'],";
           "    migrate=migrate)";
           "" ].
Proof. repeat split; vm_compute; reflexivity. Qed.

(** * Further properties *)

(** ** The filter: arity and errors *)

(** X1. [is_filter_match] raises [IndexError] exactly when the patterns
    are fewer than the values and every pattern there is matches its
    value; surplus patterns are never looked at. *)
Theorem is_filter_match_index_error
    (re_match : string → string → bool) (patterns values : list string) :
  is_filter_match re_match patterns values = Err IndexError
  ↔ (length patterns < length values)%nat
    ∧ Forall2 (λ p v, re_match p v = true) patterns
        (take (length patterns) values).
Proof.
  revert patterns. induction values as [|v values IH]; intros patterns.
  - destruct patterns; simpl; (split; [intros H; discriminate | intros [H _]; lia]).
  - destruct patterns as [|p patterns]; simpl.
    + split; [intros _; split; [lia | constructor] | done].
    + destruct (re_match p v) eqn:Hpv.
      * rewrite IH. split.
        -- intros [Hlen HF]. split; [lia | by constructor].
        -- intros [Hlen HF]. split; [lia|]. by inversion HF.
      * split; [intros H; discriminate|]. intros [_ HF]. inversion HF. congruence.
Qed.

Lemma is_filter_match_not_error re_match patterns values :
  length patterns = length values →
  ∃ b, is_filter_match re_match patterns values = Ok b.
Proof.
  intros Hlen.
  destruct (is_filter_match_same_arity re_match _ _ Hlen) as [[-> _]|[-> _]];
    eauto.
Qed.

(** X2. [get_generateInfo] never raises, whatever the rule list and the
    subject: the test on the arities keeps [is_filter_match] away from
    the patterns it would miss. *)
Theorem get_generateInfo_never_raises
    (re_match : string → string → bool) (filters : list rule)
    (subject : list string) :
  ∃ directive,
    get_generateInfo_from re_match filters subject = Ok directive.
Proof.
  induction filters as [|r filters IH]; simpl; [eauto|].
  destruct (length r.1 =? length subject)%nat eqn:Hlen; [|exact IH].
  apply Nat.eqb_eq in Hlen.
  destruct (is_filter_match_not_error re_match _ _ Hlen) as [[|] ->]; eauto.
Qed.

(** ** The rule list of the script *)

Lemma parse_unstarred c c2 rest :
  c2 ≠ "*"%char →
  Re.parse (String c (String c2 rest))
  = if Re.is_meta c then None
    else match Re.parse (String c2 rest) with
         | Some items => Some ((Re.atom_of c, false) :: items)
         | None => None
         end.
Proof.
  intros Hc2.
  destruct c2 as [[] [] [] [] [] [] [] []]; try reflexivity; congruence.
Qed.

Lemma atom_of_plain c :
  Ascii.eqb c "."%char = false → Re.atom_of c = Re.Lit c.
Proof. intros H. unfold Re.atom_of. by rewrite H. Qed.

Lemma parse_plain p :
  plain_pattern p = true → Re.parse p = Some (literal_items p).
Proof.
  induction p as [|c rest IH]; [reflexivity|].
  cbn [plain_pattern]. intros H.
  apply andb_true_iff in H as [H Hrest].
  apply andb_true_iff in H as [Hmeta Hdot].
  apply negb_true_iff in Hmeta, Hdot.
  specialize (IH Hrest).
  destruct rest as [|c2 rest'].
  - cbn [Re.parse literal_items]. by rewrite Hmeta, (atom_of_plain c Hdot).
  - rewrite parse_unstarred.
    + by rewrite Hmeta, IH, (atom_of_plain c Hdot).
    + intros ->. cbn [plain_pattern] in Hrest. discriminate.
Qed.

Lemma match_literal_items p s :
  Re.match_items (literal_items p) s = String.prefix p s.
Proof.
  revert s. induction p as [|c rest IH]; intros s.
  - by destruct s.
  - destruct s as [|c' s']; [reflexivity|].
    cbn [literal_items Re.match_items Re.atom_ok String.prefix].
    rewrite IH. destruct (Ascii.ascii_dec c c') as [->|Hne].
    + by rewrite Ascii.eqb_refl.
    + apply Ascii.eqb_neq in Hne. by rewrite Hne.
Qed.

(** A plain pattern is matched by the subjects it is a prefix of. *)
Lemma re_match_plain p s :
  plain_pattern p = true → Re.re_match p s = String.prefix p s.
Proof.
  intros Hp. unfold Re.re_match. rewrite (parse_plain p Hp).
  apply match_literal_items.
Qed.

(** [.*] is matched by every subject. *)
Lemma re_match_dot_star s : Re.re_match ".*" s = true.
Proof.
  change (Re.match_items [(Re.AnyChar, true)] s = true).
  rewrite star_unfold. destruct s; [reflexivity|].
  cbn [Re.match_items]. apply orb_true_r.
Qed.

Lemma get_generateInfo_table schema table :
  get_generateInfo [schema; table]
  = Ok (if String.prefix "public" schema
           && negb (String.prefix "film" table)
        then Some (TableGenerateInfo (Some "")) else None).
Proof.
  unfold get_generateInfo, FILTERS.
  cbn [get_generateInfo_from length Nat.eqb fst snd is_filter_match].
  rewrite !re_match_dot_star.
  rewrite !(re_match_plain "public") by reflexivity.
  rewrite !(re_match_plain "film") by reflexivity.
  destruct (String.prefix "public" schema), (String.prefix "film" table);
    reflexivity.
Qed.

Lemma get_generateInfo_column schema table column :
  get_generateInfo [schema; table; column]
  = Ok (if String.prefix "public" schema && String.prefix "film" table
           && (String.prefix "special_features" column
               || String.prefix "fulltext" column)
        then None else Some (FieldGenerateInfo default_definitions)).
Proof.
  unfold get_generateInfo, FILTERS.
  cbn [get_generateInfo_from length Nat.eqb fst snd is_filter_match].
  rewrite !re_match_dot_star.
  rewrite !(re_match_plain "public") by reflexivity.
  rewrite !(re_match_plain "film") by reflexivity.
  rewrite !(re_match_plain "special_features") by reflexivity.
  rewrite !(re_match_plain "fulltext") by reflexivity.
  destruct (String.prefix "public" schema), (String.prefix "film" table),
    (String.prefix "special_features" column),
    (String.prefix "fulltext" column); reflexivity.
Qed.

(** X3. With the rule list of the script, [get_tables] never raises and
    gives, in the order of the catalog, the tables whose schema starts
    with [public] and whose name does not start with [film]; each has the
    empty prefix, so that its model is named by the table alone. *)
Theorem get_tables_kept (conn : connection) :
  get_tables conn
  = Ok (map (λ row, {| ti_prefix := Some "";
                       ti_schema := tr_table_schema row;
                       ti_name := tr_table_name row;
                       ti_data := row |})
          (filter (λ row, table_kept row = true) (q_tables conn))).
Proof.
  unfold get_tables. induction (q_tables conn) as [|row rows IH];
    [reflexivity|].
  cbn [tables_of_rows]. rewrite get_generateInfo_table, IH.
  rewrite filter_cons.
  change (String.prefix "public" (tr_table_schema row)
          && negb (String.prefix "film" (tr_table_name row)))
    with (table_kept row).
  destruct (table_kept row) eqn:E.
  - rewrite decide_True by done. reflexivity.
  - rewrite decide_False by done. reflexivity.
Qed.

(** X4. With the rule list of the script, [get_fields] never raises and
    gives, in the order of the catalog, every column of the table but
    those whose schema starts with [public], whose table starts with
    [film] and whose name starts with [special_features] or [fulltext];
    each holds the one default [definitions]. *)
Theorem get_fields_kept (conn : connection) (table : TableInfo) :
  get_fields conn table
  = Ok (map (λ row, {| fi_definitions := default_definitions;
                       fi_schema := ti_schema table;
                       fi_table := ti_name table;
                       fi_name := cr_column_name row;
                       fi_data := row |})
          (filter (λ row, column_kept row = true)
             (q_columns conn (ti_name table) (ti_schema table)))).
Proof.
  unfold get_fields.
  induction (q_columns conn (ti_name table) (ti_schema table))
    as [|row rows IH]; [reflexivity|].
  cbn [fields_of_rows]. rewrite get_generateInfo_column, IH.
  rewrite filter_cons.
  destruct (String.prefix "public" (cr_table_schema row)
            && String.prefix "film" (cr_table_name row)
            && (String.prefix "special_features" (cr_column_name row)
                || String.prefix "fulltext" (cr_column_name row))) eqn:E.
  - rewrite decide_False by (unfold column_kept; by rewrite E).
    reflexivity.
  - rewrite decide_True by (unfold column_kept; by rewrite E).
    reflexivity.
Qed.

(** ** References: what they carry, and the bounds of the ordinal *)

Section ReferenceProperties.

Variable repr_str : string → string.

Lemma references_inversion conn field ref :
  references repr_str conn field = Ok (Some ref) →
  ∃ r1 row keyed,
    q_referencing conn (fi_table field) (fi_schema field) (fi_name field)
    = [r1]
    ∧ ref = (if negb (String.eqb (kr_delete_rule r1) "NO ACTION")
             then <["ondelete" := PyStr (repr_str (kr_delete_rule r1))]>
             else id)
              ({[ "type" :=
                    PyStr (if keyed : bool
                           then "'reference " +:+ ur_table_schema row
                                +:+ "." +:+ ur_table_name row
                                +:+ "." +:+ ur_column_name row +:+ "'"
                           else "'reference " +:+ ur_table_schema row
                                +:+ "." +:+ ur_table_name row +:+ "'") ]}
               : fdict).
Proof.
  unfold references. intros H.
  destruct (q_referencing _ _ _ _) as [|r1 [|r2 rows]]; try discriminate.
  cbn [length Nat.eqb] in H. cbv beta iota zeta in H.
  exists r1.
  repeat match type of H with
         | context [match ?x with _ => _ end] =>
             lazymatch x with
             | negb _ => fail
             | _ => destruct x
             end
         end;
    try discriminate;
    match type of H with
    | context [ur_table_schema ?row] =>
        first [ exists row, true; split; [reflexivity|];
                injection H as <-; by destruct (negb _)
              | exists row, false; split; [reflexivity|];
                injection H as <-; by destruct (negb _) ]
    end.
Qed.

End ReferenceProperties.

(** X5. A reference is produced only for a column that exactly one
    referential-constraint row names; it always has a [type], it has an
    [ondelete] (the [repr] of the delete rule) exactly when that rule is
    not [NO ACTION], and it has no other key. *)
Theorem references_carries
    (repr_str : string → string) (conn : connection) (field : FieldInfo)
    (ref : fdict) :
  references repr_str conn field = Ok (Some ref) →
  ∃ r1,
    q_referencing conn (fi_table field) (fi_schema field) (fi_name field)
    = [r1]
    ∧ is_Some (ref !! "type")
    ∧ ref !! "ondelete"
      = (if String.eqb (kr_delete_rule r1) "NO ACTION" then None
         else Some (PyStr (repr_str (kr_delete_rule r1))))
    ∧ ∀ k, k ≠ "type" → k ≠ "ondelete" → ref !! k = None.
Proof.
  intros H.
  destruct (references_inversion repr_str conn field ref H)
    as (r1 & row & keyed & Hrows & ->).
  exists r1. split; [exact Hrows|].
  destruct (String.eqb (kr_delete_rule r1) "NO ACTION"); cbn [negb];
    unfold id.
  - split; [|split].
    + rewrite lookup_singleton_eq. eauto.
    + by rewrite lookup_singleton_ne.
    + intros k Hk _. by rewrite lookup_singleton_ne.
  - split; [|split].
    + rewrite lookup_insert_ne by done. rewrite lookup_singleton_eq. eauto.
    + by rewrite lookup_insert_eq.
    + intros k Hk1 Hk2. rewrite lookup_insert_ne by done.
      by rewrite lookup_singleton_ne.
Qed.

Lemma references_carries_witness :
  ∃ r1,
    q_referencing
      (Sample.catalog [Sample.payment_id] [Sample.rental_fk]
         [Sample.rental_store; Sample.rental_no])
      "payment" "public" "payment_id" = [r1]
    ∧ is_Some ((<["ondelete" := PyStr "'CASCADE'"]>
                  {[ "type" := PyStr "'reference public.rental.rental_no'" ]}
                : fdict) !! "type")
    ∧ (<["ondelete" := PyStr "'CASCADE'"]>
         {[ "type" := PyStr "'reference public.rental.rental_no'" ]}
       : fdict) !! "ondelete"
      = (if String.eqb (kr_delete_rule r1) "NO ACTION" then None
         else Some (PyStr (Sample.repr_str (kr_delete_rule r1))))
    ∧ ∀ k, k ≠ "type" → k ≠ "ondelete" →
           (<["ondelete" := PyStr "'CASCADE'"]>
              {[ "type" := PyStr "'reference public.rental.rental_no'" ]}
            : fdict) !! k = None.
Proof.
  exact (references_carries Sample.repr_str
           (Sample.catalog [Sample.payment_id] [Sample.rental_fk]
              [Sample.rental_store; Sample.rental_no])
           (Sample.field_of Sample.payment_id)
           (<["ondelete" := PyStr "'CASCADE'"]>
              {[ "type" := PyStr "'reference public.rental.rental_no'" ]})
           eq_refl).
Defined.

Lemma py_index_out_of_range {A} (xs : list A) (i : Z) :
  Z.of_nat (length xs) ≤ i ∨ i < - Z.of_nat (length xs) →
  py_index xs i = None.
Proof.
  intros H. unfold py_index.
  destruct (Z.leb_spec 0 i), (Z.ltb_spec i (Z.of_nat (length xs))),
    (Z.leb_spec (- Z.of_nat (length xs)) i), (Z.ltb_spec i 0);
    cbn [andb]; try reflexivity; lia.
Qed.

Lemma py_index_minus_one {A} (xs : list A) :
  py_index xs (-1) = last xs.
Proof.
  unfold py_index. destruct xs as [|x xs]; [reflexivity|].
  assert ((- Z.of_nat (length (x :: xs)) <=? -1) = true) as E2
    by (apply Z.leb_le; cbn [length]; lia).
  cbn [Z.leb Z.compare andb Z.ltb]. rewrite E2. cbn [andb].
  replace (Z.to_nat (-1 + Z.of_nat (length (x :: xs))))
    with (length xs) by (cbn [length]; lia).
  rewrite last_lookup. reflexivity.
Qed.

(** X6. With one constraint and several rows on its referenced side, the
    ordinal position is used as a Python index: an ordinal larger than the
    number of rows (or below its negation plus one) raises [IndexError],
    not the unsupported-reference error, and the ordinal [0] selects the
    last row. *)
Theorem references_ordinal_bounds
    (repr_str : string → string) (conn : connection) (field : FieldInfo)
    (r1 : key_row) :
  q_referencing conn (fi_table field) (fi_schema field) (fi_name field)
  = [r1] →
  let rows2 :=
    q_referenced conn (kr_constraint_name r1) (kr_constraint_schema r1) in
  (1 < length rows2)%nat →
  (Z.of_nat (length rows2) < kr_ordinal_position r1
   ∨ kr_ordinal_position r1 ≤ - Z.of_nat (length rows2) →
   references repr_str conn field = Err IndexError)
  ∧ (kr_ordinal_position r1 = 0 →
     ∃ row ref, last rows2 = Some row
       ∧ references repr_str conn field = Ok (Some ref)
       ∧ ref !! "type"
         = Some (PyStr ("'reference " +:+ ur_table_schema row +:+ "."
                        +:+ ur_table_name row +:+ "."
                        +:+ ur_column_name row +:+ "'"))).
Proof.
  intros Hrows1. cbv zeta. intros Hlen. unfold references. rewrite Hrows1.
  cbn [length Nat.eqb]. cbv beta iota zeta.
  assert ((1 <? length (q_referenced conn (kr_constraint_name r1)
                          (kr_constraint_schema r1)))%nat = true) as ->
    by (apply Nat.ltb_lt; lia).
  split.
  - intros Hord. rewrite py_index_out_of_range by lia. reflexivity.
  - intros ->. change (0 - 1) with (-1). rewrite py_index_minus_one.
    destruct (last _) as [row|] eqn:Hlast.
    + exists row.
      assert ((length (q_referenced conn (kr_constraint_name r1)
                         (kr_constraint_schema r1)) =? 1)%nat = false) as ->
        by (apply Nat.eqb_neq; lia).
      cbv beta iota.
      destruct (negb _); eexists; (split; [reflexivity|]);
        (split; [reflexivity|]).
      * rewrite lookup_insert_ne by done. apply lookup_singleton_eq.
      * apply lookup_singleton_eq.
    + apply last_None in Hlast. rewrite Hlast in Hlen. cbn in Hlen. lia.
Qed.

Lemma references_ordinal_bounds_witness :
  references Sample.repr_str
    (Sample.catalog [Sample.payment_id]
       [ {| kr_table_name := "payment"; kr_column_name := "payment_id";
            kr_constraint_name := "payment_rental_fkey";
            kr_constraint_schema := "public";
            kr_update_rule := "NO ACTION"; kr_delete_rule := "NO ACTION";
            kr_ordinal_position := 3 |} ]
       [Sample.rental_store; Sample.rental_no])
    (Sample.field_of Sample.payment_id)
  = Err IndexError.
Proof.
  pose proof (references_ordinal_bounds Sample.repr_str
    (Sample.catalog [Sample.payment_id]
       [ {| kr_table_name := "payment"; kr_column_name := "payment_id";
            kr_constraint_name := "payment_rental_fkey";
            kr_constraint_schema := "public";
            kr_update_rule := "NO ACTION"; kr_delete_rule := "NO ACTION";
            kr_ordinal_position := 3 |} ]
       [Sample.rental_store; Sample.rental_no])
    (Sample.field_of Sample.payment_id) _ eq_refl) as H.
  cbv zeta in H. destruct (H ltac:(simpl; lia)) as [H1 _].
  apply H1. left. simpl. lia.
Defined.

(** ** [define_field]: what each block writes *)

Section FieldKeys.

Variable eval_repr : string → eval_outcome.
Variable repr_str : string → string.

Lemma references_nonempty conn field ref :
  references repr_str conn field = Ok (Some ref) →
  ref_if_true (Some ref) = Some ref.
Proof.
  intros H.
  destruct (references_inversion repr_str conn field ref H)
    as (r1 & row & keyed & _ & ->).
  unfold ref_if_true. rewrite bool_decide_eq_false_2; [reflexivity|].
  intros E. apply (f_equal (λ m : fdict, m !! "type")) in E.
  rewrite lookup_empty in E.
  destruct (negb _); unfold id in E.
  - rewrite lookup_insert_ne in E by done.
    by rewrite lookup_singleton_eq in E.
  - by rewrite lookup_singleton_eq in E.
Qed.

Lemma ref_if_true_inv ref r : ref_if_true ref = Some r → ref = Some r.
Proof.
  unfold ref_if_true. destruct ref as [r'|]; [|discriminate].
  destruct (bool_decide _); [discriminate|]. by intros [= ->].
Qed.

Lemma type_value_other_keys conn field pks d0 f1 k :
  type_value repr_str conn field pks d0 = Ok f1 →
  k ≠ "type" → k ≠ "length" → k ≠ "precision" → k ≠ "scale" →
  k ≠ "ondelete" →
  f1 !! k = d0 !! k.
Proof.
  unfold type_value. intros H K1 K2 K3 K4 K5.
  destruct (references repr_str conn field) as [ref|] eqn:Href;
    [|discriminate].
  destruct (ref_if_true ref) as [r|] eqn:Hr.
  - injection H as <-. apply ref_if_true_inv in Hr as ->.
    destruct (references_inversion repr_str conn field r Href)
      as (r1 & row & keyed & _ & ->).
    apply lookup_union_r.
    destruct (negb _); unfold id.
    + rewrite lookup_insert_ne by done. by rewrite lookup_singleton_ne.
    + by rewrite lookup_singleton_ne.
  - cbv zeta in H.
    repeat match type of H with
           | context [match ?x with _ => _ end] =>
               lazymatch type of x with
               | bool => destruct x
               | option _ => destruct x
               end
           end;
      try discriminate; injection H as <-;
      by rewrite ?lookup_insert_ne by done.
Qed.

Lemma field_value_inv conn field pks d0 f :
  field_value eval_repr repr_str conn field pks d0 = Ok f →
  ∃ f1 f2,
    type_value repr_str conn field pks d0 = Ok f1
    ∧ default_value eval_repr field f1 = Ok f2
    ∧ f = comment_value repr_str conn field (notnull_value field f2).
Proof.
  unfold field_value. intros H.
  destruct (type_value _ _ _ _ _) as [f1|]; [|discriminate].
  destruct (default_value _ _ _) as [f2|] eqn:Hd; [|discriminate].
  injection H as <-. by exists f1, f2.
Qed.

End FieldKeys.

(** X7. [define_field] writes only the keys [type], [length],
    [precision], [scale], [ondelete], [default], [notnull] and [comment]:
    under every other key (a [label], a [required]) the resolved field
    has what the [definitions] of its rule have. *)
Theorem define_field_keeps_other_keys
    (eval_repr : string → eval_outcome) (repr_str : string → string)
    (conn : connection) (field : FieldInfo) (pks : list string)
    (st st' : state) (f : loc) (d0 : fdict) :
  heap st !! fi_definitions field = Some d0 →
  define_field eval_repr repr_str conn field pks st = Ok (f, st') →
  ∃ fdef, heap st' !! f = Some fdef
    ∧ ∀ k, k ∉ ["type"; "length"; "precision"; "scale"; "ondelete";
                "default"; "notnull"; "comment"] →
           fdef !! k = d0 !! k.
Proof.
  intros Hd0 H.
  apply define_field_extends in H as (d0' & fdef & Hd0' & Hf & -> & ->).
  rewrite Hd0 in Hd0'. injection Hd0' as <-.
  exists fdef. split; [apply lookup_last|].
  intros k Hk.
  destruct (field_value_inv _ _ _ _ _ _ _ Hf) as (f1 & f2 & Ht & Hd & ->).
  assert (k ≠ "type" ∧ k ≠ "length" ∧ k ≠ "precision" ∧ k ≠ "scale"
          ∧ k ≠ "ondelete" ∧ k ≠ "default" ∧ k ≠ "notnull"
          ∧ k ≠ "comment") as (K1 & K2 & K3 & K4 & K5 & K6 & K7 & K8).
  { repeat split; intros ->; apply Hk; set_solver. }
  rewrite comment_value_other_keys, notnull_value_other_keys by done.
  rewrite (default_value_other_keys eval_repr field f1 f2 k Hd K6).
  by apply (type_value_other_keys repr_str conn field pks).
Qed.

Lemma define_field_keeps_other_keys_witness :
  ∃ fdef,
    ([ {[ "label" := PyStr "'Paid at'" ]};
       <["default" := PyStr "request.now"]>
         (<["type" := PyStr "'datetime'"]>
            {[ "label" := PyStr "'Paid at'" ]}) ] : list fdict) !! 1%nat
    = Some fdef
    ∧ ∀ k, k ∉ ["type"; "length"; "precision"; "scale"; "ondelete";
                "default"; "notnull"; "comment"] →
           fdef !! k = ({[ "label" := PyStr "'Paid at'" ]} : fdict) !! k.
Proof.
  apply (define_field_keeps_other_keys Sample.eval_repr Sample.repr_str
           (Sample.catalog [Sample.paid] [] []) (Sample.field_of Sample.paid)
           ["payment_id"]
           {| heap := [ {[ "label" := PyStr "'Paid at'" ]} ]; out := [] |}
           {| heap := [ {[ "label" := PyStr "'Paid at'" ]};
                        <["default" := PyStr "request.now"]>
                          (<["type" := PyStr "'datetime'"]>
                             {[ "label" := PyStr "'Paid at'" ]}) ];
              out := [] |}
           1%nat {[ "label" := PyStr "'Paid at'" ]}).
  - reflexivity.
  - vm_compute. reflexivity.
Defined.

(** X8. The [notnull] flag is written exactly when the catalog value of
    [is_nullable] is false as a condition ([None], [False], [0], the
    empty string); for any other value, such as a non-empty text, the
    resolved field has under [notnull] what the [definitions] have. *)
Theorem notnull_written_for_false_values
    (eval_repr : string → eval_outcome) (repr_str : string → string)
    (conn : connection) (field : FieldInfo) (pks : list string)
    (st st' : state) (f : loc) (d0 : fdict) :
  heap st !! fi_definitions field = Some d0 →
  define_field eval_repr repr_str conn field pks st = Ok (f, st') →
  ∃ fdef, heap st' !! f = Some fdef
    ∧ fdef !! "notnull"
      = (if truthy (cr_is_nullable (fi_data field)) then d0 !! "notnull"
         else Some (PyStr "True")).
Proof.
  intros Hd0 H.
  apply define_field_extends in H as (d0' & fdef & Hd0' & Hf & -> & ->).
  rewrite Hd0 in Hd0'. injection Hd0' as <-.
  exists fdef. split; [apply lookup_last|].
  destruct (field_value_inv _ _ _ _ _ _ _ Hf) as (f1 & f2 & Ht & Hd & ->).
  rewrite comment_value_other_keys by done. unfold notnull_value.
  destruct (truthy _); cbn [negb].
  - rewrite (default_value_other_keys eval_repr field f1 f2 _ Hd) by done.
    by apply (type_value_other_keys repr_str conn field pks).
  - apply lookup_insert_eq.
Qed.

Lemma notnull_written_for_false_values_witness :
  ∃ fdef,
    ([ ∅; <["type" := PyStr "'decimal(10,2)'"]>
            (<["scale" := PyInt 2]> (<["precision" := PyInt 10]> ∅)) ]
     : list fdict) !! 1%nat = Some fdef
    ∧ fdef !! "notnull" = (∅ : fdict) !! "notnull".
Proof.
  apply (notnull_written_for_false_values Sample.eval_repr Sample.repr_str
           (Sample.catalog [Sample.amount] [] [])
           (Sample.field_of Sample.amount) ["payment_id"] initial_state
           {| heap := [ ∅; <["type" := PyStr "'decimal(10,2)'"]>
                             (<["scale" := PyInt 2]>
                                (<["precision" := PyInt 10]> ∅)) ];
              out := [] |}
           1%nat ∅).
  - reflexivity.
  - vm_compute. reflexivity.
Defined.

(** ** [define_field]: the type of a column *)

(** X9. A reference takes precedence over everything the catalog says of
    the column: when [references] gives a reference and the default is
    supported, the field is resolved with the type (and the on-delete
    rule) of the reference whatever its data type, even one that no
    branch of the dispatch names, and whether or not it is an
    identity. *)
Theorem reference_takes_precedence
    (eval_repr : string → eval_outcome) (repr_str : string → string)
    (conn : connection) (field : FieldInfo) (pks : list string)
    (st : state) (d0 ref : fdict) :
  heap st !! fi_definitions field = Some d0 →
  references repr_str conn field = Ok (Some ref) →
  default_supported eval_repr field = true →
  ∃ f, define_field eval_repr repr_str conn field pks st
       = Ok (length (heap st), {| heap := heap st ++ [f]; out := out st |})
       ∧ is_Some (ref !! "type")
       ∧ f !! "type" = ref !! "type"
       ∧ (is_Some (ref !! "ondelete") → f !! "ondelete" = ref !! "ondelete").
Proof.
  intros Hd0 Href Hsup. rewrite define_field_run, Hd0.
  assert (type_value repr_str conn field pks d0 = Ok (ref ∪ d0)) as Ht.
  { unfold type_value.
    by rewrite Href, (references_nonempty repr_str conn field ref Href). }
  destruct (field_value_after_type eval_repr repr_str conn field pks d0 _
              Ht Hsup) as (f & -> & Hkeys).
  destruct (references_has_type repr_str conn field (Some ref) ref Href
              (references_nonempty repr_str conn field ref Href))
    as [ty Hty].
  exists f. split; [reflexivity|]. split; [by exists ty|]. split.
  - rewrite Hkeys by done. rewrite Hty. by apply lookup_union_Some_l.
  - intros [v Hv]. rewrite Hkeys by done. rewrite Hv.
    by apply lookup_union_Some_l.
Qed.

Lemma reference_takes_precedence_witness :
  ∃ f, define_field Sample.eval_repr Sample.repr_str
         (Sample.catalog [Sample.paid_tz] [Sample.customer_fk]
            [Sample.customer_id])
         (Sample.field_of
            (Sample.column "payment" "payment_id" "timestamp with time zone"
               (PyStr "NO") PyNone PyNone None))
         ["payment_id"] initial_state
       = Ok (1%nat, {| heap := [∅; f]; out := [] |})
       ∧ is_Some (({[ "type" := PyStr "'reference public.customer'" ]}
                   : fdict) !! "type")
       ∧ f !! "type"
         = ({[ "type" := PyStr "'reference public.customer'" ]} : fdict)
           !! "type"
       ∧ (is_Some (({[ "type" := PyStr "'reference public.customer'" ]}
                    : fdict) !! "ondelete") →
          f !! "ondelete"
          = ({[ "type" := PyStr "'reference public.customer'" ]} : fdict)
            !! "ondelete").
Proof.
  apply (reference_takes_precedence Sample.eval_repr Sample.repr_str
           (Sample.catalog [Sample.paid_tz] [Sample.customer_fk]
              [Sample.customer_id])
           (Sample.field_of
              (Sample.column "payment" "payment_id"
                 "timestamp with time zone" (PyStr "NO") PyNone PyNone None))
           ["payment_id"] initial_state ∅
           {[ "type" := PyStr "'reference public.customer'" ]}).
  - reflexivity.
  - reflexivity.
  - reflexivity.
Defined.

Lemma py_in_false_cons x y ys :
  py_in x (y :: ys) = false → String.eqb x y = false ∧ py_in x ys = false.
Proof. unfold py_in. cbn [existsb]. apply orb_false_iff. Qed.

(** X10. A column that has no reference and is no identity, whose data
    type does not start with [character] and is none of the names of the
    dispatch, makes [define_field] raise the unsupported-type error with
    the schema, table, column and type; the default expression is not
    looked at before. *)
Theorem unnamed_data_type_is_fatal
    (eval_repr : string → eval_outcome) (repr_str : string → string)
    (conn : connection) (field : FieldInfo) (pks : list string)
    (st : state) :
  is_Some (heap st !! fi_definitions field) →
  references repr_str conn field = Ok None →
  identity_override field pks = false →
  String.prefix "character" (cr_data_type (fi_data field)) = false →
  py_in (cr_data_type (fi_data field)) named_data_types = false →
  define_field eval_repr repr_str conn field pks st
  = Err (DataTypeNotSupported (fi_schema field) (fi_table field)
           (fi_name field) (cr_data_type (fi_data field))).
Proof.
  intros [d0 Hd0] Href Hid Hchar Hnamed.
  rewrite define_field_run, Hd0.
  unfold field_value, type_value, identity_override in *.
  rewrite Href. cbn [ref_if_true]. cbv zeta. rewrite Hid, Hchar.
  unfold named_data_types in Hnamed.
  repeat (apply py_in_false_cons in Hnamed as [? Hnamed]).
  unfold py_in. cbn [existsb].
  repeat match goal with
         | E : String.eqb _ _ = false |- _ => rewrite E; clear E
         end.
  reflexivity.
Qed.

Lemma unnamed_data_type_is_fatal_witness :
  define_field Sample.eval_repr Sample.repr_str
    (Sample.catalog [] [] [])
    (Sample.field_of
       (Sample.column "payment" "tags" "ARRAY" (PyStr "YES") PyNone PyNone
          (Some "1/0")))
    ["payment_id"] initial_state
  = Err (DataTypeNotSupported "public" "payment" "tags" "ARRAY").
Proof.
  apply (unnamed_data_type_is_fatal Sample.eval_repr Sample.repr_str
           (Sample.catalog [] [] [])
           (Sample.field_of
              (Sample.column "payment" "tags" "ARRAY" (PyStr "YES") PyNone
                 PyNone (Some "1/0")))
           ["payment_id"] initial_state).
  - exists ∅. reflexivity.
  - reflexivity.
  - reflexivity.
  - reflexivity.
  - reflexivity.
Defined.

(** X11. A [numeric] or [currency] column without reference or identity,
    with a supported default, is resolved with
    [type='decimal(precision,scale)'] printed from the catalog values,
    the scale being [0] when the catalog has none (or has [0]); a missing
    precision is printed as [None]. The two values are kept under
    [precision] and [scale]. *)
Theorem numeric_type_text
    (eval_repr : string → eval_outcome) (repr_str : string → string)
    (conn : connection) (field : FieldInfo) (pks : list string)
    (st : state) (d0 : fdict) :
  heap st !! fi_definitions field = Some d0 →
  references repr_str conn field = Ok None →
  identity_override field pks = false →
  cr_data_type (fi_data field) = "numeric"
  ∨ cr_data_type (fi_data field) = "currency" →
  default_supported eval_repr field = true →
  let precision := cr_numeric_precision (fi_data field) in
  let scale := py_or (cr_numeric_scale (fi_data field)) (PyInt 0) in
  ∃ f, define_field eval_repr repr_str conn field pks st
       = Ok (length (heap st), {| heap := heap st ++ [f]; out := out st |})
       ∧ f !! "type"
         = Some (PyStr ("'decimal(" +:+ py_str precision +:+ ","
                        +:+ py_str scale +:+ ")'"))
       ∧ f !! "precision" = Some precision
       ∧ f !! "scale" = Some scale.
Proof.
  intros Hd0 Href Hid Hdt Hsup. cbv zeta. rewrite define_field_run, Hd0.
  assert (type_value repr_str conn field pks d0
          = Ok (<["type" :=
                    PyStr ("'decimal("
                           +:+ py_str (cr_numeric_precision (fi_data field))
                           +:+ ","
                           +:+ py_str (py_or (cr_numeric_scale (fi_data field))
                                         (PyInt 0))
                           +:+ ")'")]>
                  (<["scale" := py_or (cr_numeric_scale (fi_data field))
                                  (PyInt 0)]>
                     (<["precision" := cr_numeric_precision (fi_data field)]>
                        d0)))) as Ht.
  { unfold type_value, identity_override in *.
    rewrite Href. cbn [ref_if_true]. cbv zeta. rewrite Hid.
    destruct Hdt as [-> | ->];
      cbn [String.prefix py_in existsb String.eqb Ascii.eqb Bool.eqb orb];
      cbv beta iota;
      rewrite lookup_insert_ne by done;
      rewrite !lookup_insert_eq; reflexivity. }
  destruct (field_value_after_type eval_repr repr_str conn field pks d0 _
              Ht Hsup) as (f & -> & Hkeys).
  exists f. split; [reflexivity|].
  rewrite !Hkeys by done. repeat split.
  - apply lookup_insert_eq.
  - rewrite !lookup_insert_ne by done. apply lookup_insert_eq.
  - rewrite lookup_insert_ne by done. apply lookup_insert_eq.
Qed.

Lemma numeric_type_text_witness :
  ∃ f, define_field Sample.eval_repr Sample.repr_str
         (Sample.catalog [] [] [])
         (Sample.field_of
            (Sample.column "payment" "rate" "numeric" (PyStr "YES") PyNone
               PyNone None))
         ["payment_id"] initial_state
       = Ok (1%nat, {| heap := [∅; f]; out := [] |})
       ∧ f !! "type" = Some (PyStr "'decimal(None,0)'")
       ∧ f !! "precision" = Some PyNone
       ∧ f !! "scale" = Some (PyInt 0).
Proof.
  apply (numeric_type_text Sample.eval_repr Sample.repr_str
           (Sample.catalog [] [] [])
           (Sample.field_of
              (Sample.column "payment" "rate" "numeric" (PyStr "YES") PyNone
                 PyNone None))
           ["payment_id"] initial_state ∅).
  - reflexivity.
  - reflexivity.
  - reflexivity.
  - left. reflexivity.
  - reflexivity.
Defined.

(** X12. A column whose data type starts with [character], without
    reference or identity and with a supported default, is resolved with
    [type='string']; its [length] is the catalog maximum when that is a
    true value, and otherwise (no maximum, or [0]) what the [definitions]
    have under [length]. *)
Theorem character_type_length
    (eval_repr : string → eval_outcome) (repr_str : string → string)
    (conn : connection) (field : FieldInfo) (pks : list string)
    (st : state) (d0 : fdict) :
  heap st !! fi_definitions field = Some d0 →
  references repr_str conn field = Ok None →
  identity_override field pks = false →
  String.prefix "character" (cr_data_type (fi_data field)) = true →
  default_supported eval_repr field = true →
  ∃ f, define_field eval_repr repr_str conn field pks st
       = Ok (length (heap st), {| heap := heap st ++ [f]; out := out st |})
       ∧ f !! "type" = Some (PyStr "'string'")
       ∧ f !! "length"
         = (if truthy (cr_character_maximum_length (fi_data field))
            then Some (cr_character_maximum_length (fi_data field))
            else d0 !! "length").
Proof.
  intros Hd0 Href Hid Hchar Hsup. rewrite define_field_run, Hd0.
  assert (type_value repr_str conn field pks d0
          = Ok (if truthy (cr_character_maximum_length (fi_data field))
                then <["length" :=
                         cr_character_maximum_length (fi_data field)]>
                       (<["type" := PyStr "'string'"]> d0)
                else <["type" := PyStr "'string'"]> d0)) as Ht.
  { unfold type_value, identity_override in *.
    rewrite Href. cbn [ref_if_true]. cbv zeta. by rewrite Hid, Hchar. }
  destruct (field_value_after_type eval_repr repr_str conn field pks d0 _
              Ht Hsup) as (f & -> & Hkeys).
  exists f. split; [reflexivity|].
  rewrite !Hkeys by done.
  destruct (truthy _); split.
  - rewrite lookup_insert_ne by done. apply lookup_insert_eq.
  - apply lookup_insert_eq.
  - apply lookup_insert_eq.
  - by rewrite lookup_insert_ne.
Qed.

Lemma character_type_length_witness :
  ∃ f, define_field Sample.eval_repr Sample.repr_str
         (Sample.catalog [] [] [])
         (Sample.field_of
            {| cr_table_schema := "public"; cr_table_name := "payment";
               cr_column_name := "note";
               cr_data_type := "character varying";
               cr_is_nullable := PyStr "YES";
               cr_character_maximum_length := PyInt 255;
               cr_numeric_precision := PyNone; cr_numeric_scale := PyNone;
               cr_column_default := None |})
         ["payment_id"] initial_state
       = Ok (1%nat, {| heap := [∅; f]; out := [] |})
       ∧ f !! "type" = Some (PyStr "'string'")
       ∧ f !! "length" = Some (PyInt 255).
Proof.
  apply (character_type_length Sample.eval_repr Sample.repr_str
           (Sample.catalog [] [] [])
           (Sample.field_of
              {| cr_table_schema := "public"; cr_table_name := "payment";
                 cr_column_name := "note";
                 cr_data_type := "character varying";
                 cr_is_nullable := PyStr "YES";
                 cr_character_maximum_length := PyInt 255;
                 cr_numeric_precision := PyNone; cr_numeric_scale := PyNone;
                 cr_column_default := None |})
           ["payment_id"] initial_state ∅);
    reflexivity.
Defined.

(** ** The emitter *)

Lemma omap_agree {A B} (g1 g2 : A → option B) (xs : list A) :
  Forall (λ x, g1 x = g2 x) xs → omap g1 xs = omap g2 xs.
Proof.
  induction 1 as [|x xs Hx _ IH]; [reflexivity|].
  rewrite !omap_first, Hx, IH. reflexivity.
Qed.

(** X13. Only the keys of [KWARGS] are printed, and only with a true
    value: writing a key that is not in [KWARGS] (such as [precision] or
    [scale]) leaves the text of a field as it is, and a key written with
    a false value (the empty type of an unsupported column, a length [0])
    is printed as if it were missing. *)
Theorem kwargs_text_unlisted_or_false (f : fdict) (k : string) (v : pyval) :
  (k ∉ KWARGS → kwargs_text (<[k := v]> f) = kwargs_text f)
  ∧ (truthy v = false →
     kwargs_text (<[k := v]> f) = kwargs_text (delete k f)).
Proof.
  split; intros H; unfold kwargs_text; f_equal; apply omap_agree;
    apply Forall_forall; intros k' Hk'.
  - rewrite lookup_insert_ne; [reflexivity|]. intros ->. by apply H.
  - destruct (decide (k = k')) as [->|Hne].
    + by rewrite lookup_insert_eq, lookup_delete_eq, H.
    + by rewrite lookup_insert_ne, lookup_delete_ne.
Qed.

Lemma kwargs_text_unlisted_or_false_witness :
  kwargs_text (<["scale" := PyInt 2]> {[ "type" := PyStr "'decimal(10,2)'" ]})
  = kwargs_text {[ "type" := PyStr "'decimal(10,2)'" ]}
  ∧ kwargs_text (<["type" := PyStr ""]> {[ "notnull" := PyStr "True" ]})
    = kwargs_text (delete "type" {[ "notnull" := PyStr "True" ]}).
Proof.
  split.
  - apply (proj1 (kwargs_text_unlisted_or_false
                    {[ "type" := PyStr "'decimal(10,2)'" ]} "scale"
                    (PyInt 2))).
    unfold KWARGS. intros H.
    repeat (apply elem_of_cons in H as [H|H]; [discriminate|]).
    by apply elem_of_nil in H.
  - apply (proj2 (kwargs_text_unlisted_or_false
                    {[ "notnull" := PyStr "True" ]} "type" (PyStr ""))).
    reflexivity.
Defined.



Section TableShape.

Variable eval_repr : string → eval_outcome.
Variable repr_str : string → string.


(** Two runs of the loop from stores that agree on the default
    [definitions] end alike and print the same lines. *)
Lemma define_fields_same conn fields :
  ∀ pks st1 st2 d0,
    Forall (λ g, fi_definitions g = default_definitions) fields →
    heap st1 !! default_definitions = Some d0 →
    heap st2 !! default_definitions = Some d0 →
    match define_fields eval_repr repr_str conn fields pks st1,
          define_fields eval_repr repr_str conn fields pks st2 with
    | Ok (p1, s1), Ok (p2, s2) =>
        p1 = p2 ∧ heap s2 !! default_definitions = Some d0
        ∧ ∃ lines, out s1 = out st1 ++ lines ∧ out s2 = out st2 ++ lines
    | Err e1, Err e2 => e1 = e2
    | _, _ => False
    end.
Proof.
  induction fields as [|field fields IH]; intros pks st1 st2 d0 Hdef H1 H2.
  - cbn [define_fields]. unfold ret. repeat split; [done|].
    exists []. by rewrite !app_nil_r.
  - inversion Hdef as [|? ? Hfield Hdef']; subst.
    rewrite !define_fields_step, Hfield, H1, H2.
    destruct (field_value _ _ _ _ _ _) as [f|]; [|reflexivity].
    destruct (_ !! "type") as [ty|]; [|reflexivity].
    specialize (IH (pks_after field pks ty)
                  {| heap := heap st1 ++ [unique_value conn field pks f];
                     out := out st1
                            ++ [field_line field
                                  (unique_value conn field pks f)] |}
                  {| heap := heap st2 ++ [unique_value conn field pks f];
                     out := out st2
                            ++ [field_line field
                                  (unique_value conn field pks f)] |}
                  d0 Hdef'
                  (lookup_app_l_Some _ _ _ _ H1)
                  (lookup_app_l_Some _ _ _ _ H2)).
    destruct (define_fields _ _ _ fields _ _) as [[p1 s1]|e1];
      destruct (define_fields _ _ _ fields _ _) as [[p2 s2]|e2];
      try done.
    destruct IH as (-> & Hd & lines & Ho1 & Ho2). cbn [out] in Ho1, Ho2.
    repeat split; [done|].
    exists (field_line field (unique_value conn field pks f) :: lines).
    by rewrite Ho1, Ho2, <- !app_assoc.
Qed.

Lemma define_table_same conn table st1 st2 d0 :
  heap st1 !! default_definitions = Some d0 →
  heap st2 !! default_definitions = Some d0 →
  match define_table eval_repr repr_str conn table st1,
        define_table eval_repr repr_str conn table st2 with
  | Ok (_, s1), Ok (_, s2) =>
      heap s2 !! default_definitions = Some d0
      ∧ ∃ lines, out s1 = out st1 ++ lines ∧ out s2 = out st2 ++ lines
  | Err e1, Err e2 => e1 = e2
  | _, _ => False
  end.
Proof.
  intros H1 H2. unfold define_table. unfold bind at 1 5. unfold lift.
  destruct (get_fields conn table) as [fields|e] eqn:Hget; [|reflexivity].
  unfold get_fields in Hget. apply fields_of_rows_shape in Hget.
  assert (Forall (λ g, fi_definitions g = default_definitions) fields)
    as Hdef by (eapply Forall_impl; [exact Hget|]; by intros g [? _]).
  unfold bind, print, ret. cbn [heap out].
  pose proof (define_fields_same conn fields (primarykeys conn table)
    {| heap := heap st1;
       out := (out st1
               ++ ["db.define_table('" +:+ get_prefix table
                   +:+ ti_name table +:+ "',"])
              ++ ["    rname='" +:+ ti_schema table +:+ "."
                  +:+ ti_name table +:+ "',"] |}
    {| heap := heap st2;
       out := (out st2
               ++ ["db.define_table('" +:+ get_prefix table
                   +:+ ti_name table +:+ "',"])
              ++ ["    rname='" +:+ ti_schema table +:+ "."
                  +:+ ti_name table +:+ "',"] |}
    d0 Hdef H1 H2) as Hsame.
  destruct (define_fields _ _ _ fields _ _) as [[p1 s1]|e1];
    destruct (define_fields _ _ _ fields _ _) as [[p2 s2]|e2];
    try done.
  destruct Hsame as (-> & Hd & lines & Ho1 & Ho2). cbn [out] in Ho1, Ho2.
  destruct p2 as [|p pks']; cbn [heap out]; (split; [exact Hd|]);
    eexists; rewrite Ho1, Ho2, <- !app_assoc; split; reflexivity.
Qed.


End TableShape.



(** X15. Generating a table again, from the store that the first
    generation left, ends as the first did and prints the same text
    again: the fields resolved before have left nothing behind that a
    later resolution reads. *)
Theorem define_table_again
    (eval_repr : string → eval_outcome) (repr_str : string → string)
    (conn : connection) (table : TableInfo) (st s1 : state) :
  is_Some (heap st !! default_definitions) →
  define_table eval_repr repr_str conn table st = Ok (tt, s1) →
  ∃ text s2,
    out s1 = out st ++ text
    ∧ define_table eval_repr repr_str conn table s1 = Ok (tt, s2)
    ∧ out s2 = out s1 ++ text.
Proof.
  intros [d0 Hd0] H.
  destruct (define_table_extends eval_repr repr_str conn table st tt s1 H)
    as [fs Hfs].
  assert (heap s1 !! default_definitions = Some d0) as Hd1
    by (rewrite Hfs; by apply lookup_app_l_Some).
  pose proof (define_table_same eval_repr repr_str conn table st s1 d0
                Hd0 Hd1) as Hsame.
  rewrite H in Hsame.
  destruct (define_table _ _ conn table s1) as [[[] s2]|]; [|done].
  destruct Hsame as (_ & text & Ho1 & Ho2).
  by exists text, s2.
Qed.

Lemma define_table_again_witness :
  ∃ text s2,
    [ "db.define_table('payment',"; "    rname='public.payment',";
      "    Field('amount', type='decimal(10,2)'),";
      "    primarykey=['payment_id'],"; "    migrate=migrate)"; "" ]
    = [] ++ text
    ∧ define_table Sample.eval_repr Sample.repr_str
        (Sample.catalog [Sample.amount] [] []) Sample.payment
        {| heap := [ ∅; <["type" := PyStr "'decimal(10,2)'"]>
                          (<["scale" := PyInt 2]>
                             (<["precision" := PyInt 10]> ∅)) ];
           out := [ "db.define_table('payment',";
                    "    rname='public.payment',";
                    "    Field('amount', type='decimal(10,2)'),";
                    "    primarykey=['payment_id'],";
                    "    migrate=migrate)"; "" ] |}
      = Ok (tt, s2)
    ∧ out s2
      = [ "db.define_table('payment',"; "    rname='public.payment',";
          "    Field('amount', type='decimal(10,2)'),";
          "    primarykey=['payment_id'],"; "    migrate=migrate)"; "" ]
        ++ text.
Proof.
  apply (define_table_again Sample.eval_repr Sample.repr_str
           (Sample.catalog [Sample.amount] [] []) Sample.payment
           initial_state
           {| heap := [ ∅; <["type" := PyStr "'decimal(10,2)'"]>
                             (<["scale" := PyInt 2]>
                                (<["precision" := PyInt 10]> ∅)) ];
              out := [ "db.define_table('payment',";
                       "    rname='public.payment',";
                       "    Field('amount', type='decimal(10,2)'),";
                       "    primarykey=['payment_id'],";
                       "    migrate=migrate)"; "" ] |}).
  - exists ∅. reflexivity.
  - vm_compute. reflexivity.
Defined.

(** ** The whole run *)

Section Run.

Variable eval_repr : string → eval_outcome.
Variable repr_str : string → string.


(** The text of a run over some tables is the text of each table, one
    after the other, each as it is printed from the store [st0]. *)
Lemma define_tables_blocks conn tables :
  ∀ st st0 d0 u st',
    heap st !! default_definitions = Some d0 →
    heap st0 !! default_definitions = Some d0 →
    define_tables eval_repr repr_str conn tables st = Ok (u, st') →
    ∃ blocks,
      out st' = out st ++ concat blocks
      ∧ Forall2 (λ table block,
                   ∃ s, define_table eval_repr repr_str conn table st0
                        = Ok (tt, s)
                        ∧ out s = out st0 ++ block) tables blocks.
Proof.
  induction tables as [|table tables IH]; intros st st0 d0 u st' Hd Hd0 H.
  - injection H as <- <-. exists []. split; [|constructor].
    cbn [concat]. by rewrite app_nil_r.
  - cbn [define_tables] in H. unfold bind in H.
    pose proof (define_table_same eval_repr repr_str conn table st st0 d0
                  Hd Hd0) as Hsame.
    destruct (define_table _ _ conn table st) as [[u1 s1]|] eqn:Hone;
      [|discriminate].
    destruct (define_table _ _ conn table st0) as [[[] s]|] eqn:Hzero;
      [|done].
    destruct Hsame as (_ & block & Ho1 & Ho0).
    pose proof Hone as Hext.
    apply define_table_extends in Hext as [fs Hfs].
    assert (heap s1 !! default_definitions = Some d0) as Hd1
      by (rewrite Hfs; by apply lookup_app_l_Some).
    destruct (IH s1 st0 d0 u st' Hd1 Hd0 H) as (blocks & Hout & Hblocks).
    exists (block :: blocks). split.
    + cbn [concat]. by rewrite Hout, Ho1, <- app_assoc.
    + constructor; [by exists s | exact Hblocks].
Qed.

End Run.

(** X16. The text of a whole run is its head of four lines, then the
    text of each table of [get_tables], in their order, each being what
    [define_table] prints for that table alone from the starting store:
    no table changes what a later one prints. *)
Theorem define_db_composes
    (eval_repr : string → eval_outcome) (repr_str : string → string)
    (conn : connection) (db host port user passwd : string)
    (tables : list TableInfo) (st st' : state) :
  is_Some (heap st !! default_definitions) →
  get_tables conn = Ok tables →
  define_db eval_repr repr_str conn db host port user passwd st
  = Ok (tt, st') →
  ∃ blocks,
    out st'
    = out st
      ++ [ dal_line db host port user passwd; ""; "migrate = False"; "" ]
      ++ concat blocks
    ∧ Forall2 (λ table block,
                 ∃ s, define_table eval_repr repr_str conn table st
                      = Ok (tt, s)
                      ∧ out s = out st ++ block) tables blocks.
Proof.
  intros [d0 Hd0] Hget H. unfold define_db in H.
  unfold bind at 1 2 3 4 5 in H. unfold print, lift in H.
  rewrite Hget in H. cbn [heap out] in H.
  destruct (define_tables_blocks eval_repr repr_str conn tables
              {| heap := heap st;
                 out := (((out st ++ [dal_line db host port user passwd])
                          ++ [""]) ++ ["migrate = False"]) ++ [""] |}
              st d0 tt st' Hd0 Hd0 H) as (blocks & Hout & Hblocks).
  exists blocks. split; [|exact Hblocks].
  cbn [out] in Hout. by rewrite Hout, <- !app_assoc.
Qed.

Lemma define_db_composes_witness :
  ∃ blocks,
    [ dal_line "shop" "localhost" "5432" "martin" "secret"; "";
      "migrate = False"; "";
      "db.define_table('payment',"; "    rname='public.payment',";
      "    Field('amount', type='decimal(10,2)'),";
      "    primarykey=['payment_id'],"; "    migrate=migrate)"; "" ]
    = [] ++ [ dal_line "shop" "localhost" "5432" "martin" "secret"; "";
              "migrate = False"; "" ]
      ++ concat blocks
    ∧ Forall2 (λ table block,
                 ∃ s, define_table Sample.eval_repr Sample.repr_str
                        (Sample.catalog [Sample.amount] [] []) table
                        initial_state = Ok (tt, s)
                      ∧ out s = [] ++ block)
        [Sample.payment] blocks.
Proof.
  apply (define_db_composes Sample.eval_repr Sample.repr_str
           (Sample.catalog [Sample.amount] [] [])
           "shop" "localhost" "5432" "martin" "secret"
           [Sample.payment] initial_state
           {| heap := [ ∅; <["type" := PyStr "'decimal(10,2)'"]>
                             (<["scale" := PyInt 2]>
                                (<["precision" := PyInt 10]> ∅)) ];
              out := [ dal_line "shop" "localhost" "5432" "martin" "secret";
                       ""; "migrate = False"; "";
                       "db.define_table('payment',";
                       "    rname='public.payment',";
                       "    Field('amount', type='decimal(10,2)'),";
                       "    primarykey=['payment_id'],";
                       "    migrate=migrate)"; "" ] |}).
  - exists ∅. reflexivity.
  - vm_compute. reflexivity.
  - vm_compute. reflexivity.
Defined.



(** ** Defaults and tolerated types *)

(** X18. A column for which the catalog has no default expression ([None]
    or the empty text) is resolved with the [default] of its
    [definitions], if they have one: the default block writes nothing,
    and no other block writes that key. *)
Theorem no_default_keeps_definitions
    (eval_repr : string → eval_outcome) (repr_str : string → string)
    (conn : connection) (field : FieldInfo) (pks : list string)
    (st st' : state) (f : loc) (d0 : fdict) :
  heap st !! fi_definitions field = Some d0 →
  cr_column_default (fi_data field) = None
  ∨ cr_column_default (fi_data field) = Some "" →
  define_field eval_repr repr_str conn field pks st = Ok (f, st') →
  ∃ fdef, heap st' !! f = Some fdef ∧ fdef !! "default" = d0 !! "default".
Proof.
  intros Hd0 Hnone H.
  apply define_field_extends in H as (d0' & fdef & Hd0' & Hf & -> & ->).
  rewrite Hd0 in Hd0'. injection Hd0' as <-.
  exists fdef. split; [apply lookup_last|].
  destruct (field_value_inv _ _ _ _ _ _ _ Hf) as (f1 & f2 & Ht & Hd & ->).
  rewrite comment_value_other_keys, notnull_value_other_keys by done.
  assert (f2 = f1) as ->.
  { unfold default_value in Hd.
    destruct Hnone as [E|E]; rewrite E in Hd; by injection Hd. }
  by apply (type_value_other_keys repr_str conn field pks).
Qed.

Lemma no_default_keeps_definitions_witness :
  ∃ fdef,
    ([ {[ "default" := PyStr "0" ]};
       <["type" := PyStr "'decimal(10,2)'"]>
         (<["scale" := PyInt 2]>
            (<["precision" := PyInt 10]> {[ "default" := PyStr "0" ]})) ]
     : list fdict) !! 1%nat = Some fdef
    ∧ fdef !! "default" = ({[ "default" := PyStr "0" ]} : fdict) !! "default".
Proof.
  apply (no_default_keeps_definitions Sample.eval_repr Sample.repr_str
           (Sample.catalog [Sample.amount] [] [])
           (Sample.field_of Sample.amount) ["payment_id"]
           {| heap := [ {[ "default" := PyStr "0" ]} ]; out := [] |}
           {| heap := [ {[ "default" := PyStr "0" ]};
                        <["type" := PyStr "'decimal(10,2)'"]>
                          (<["scale" := PyInt 2]>
                             (<["precision" := PyInt 10]>
                                {[ "default" := PyStr "0" ]})) ];
              out := [] |}
           1%nat {[ "default" := PyStr "0" ]}).
  - reflexivity.
  - left. reflexivity.
  - vm_compute. reflexivity.
Defined.

Lemma kwargs_text_false_key (f : fdict) (k : string) (v : pyval) :
  f !! k = Some v → truthy v = false →
  kwargs_text f = kwargs_text (delete k f).
Proof.
  intros Hk Hv. unfold kwargs_text. f_equal. apply omap_agree.
  apply Forall_forall. intros k' _.
  destruct (decide (k = k')) as [<-|Hne].
  - by rewrite Hk, lookup_delete_eq, Hv.
  - by rewrite lookup_delete_ne.
Qed.

(** X19. A column of one of the tolerated types ([point], [lseg],
    [polygon], [unknown], [USER-DEFINED]), without reference or identity
    and with a supported default, is resolved with the empty type, and
    its [Field] line is printed as if it had no type at all. *)
Theorem tolerated_type_is_not_printed
    (eval_repr : string → eval_outcome) (repr_str : string → string)
    (conn : connection) (field : FieldInfo) (pks : list string)
    (st : state) (d0 : fdict) :
  heap st !! fi_definitions field = Some d0 →
  references repr_str conn field = Ok None →
  identity_override field pks = false →
  py_in (cr_data_type (fi_data field))
    ["point"; "lseg"; "polygon"; "unknown"; "USER-DEFINED"] = true →
  default_supported eval_repr field = true →
  ∃ f, define_field eval_repr repr_str conn field pks st
       = Ok (length (heap st), {| heap := heap st ++ [f]; out := out st |})
       ∧ f !! "type" = Some (PyStr "")
       ∧ field_line field f = field_line field (delete "type" f).
Proof.
  intros Hd0 Href Hid Hdt Hsup. rewrite define_field_run, Hd0.
  assert (type_value repr_str conn field pks d0
          = Ok (<["type" := PyStr ""]> d0)) as Ht.
  { unfold type_value, identity_override in *.
    rewrite Href. cbn [ref_if_true]. cbv zeta. rewrite Hid.
    unfold py_in in Hdt. cbn [existsb] in Hdt.
    repeat (apply orb_true_iff in Hdt as [Hdt|Hdt]);
      try discriminate; apply String.eqb_eq in Hdt; rewrite Hdt;
      reflexivity. }
  destruct (field_value_after_type eval_repr repr_str conn field pks d0 _
              Ht Hsup) as (f & -> & Hkeys).
  assert (f !! "type" = Some (PyStr "")) as Htype
    by (rewrite Hkeys by done; apply lookup_insert_eq).
  exists f. split; [reflexivity|]. split; [exact Htype|].
  unfold field_line.
  by rewrite (kwargs_text_false_key f "type" (PyStr "") Htype).
Qed.

Lemma tolerated_type_is_not_printed_witness :
  ∃ f, define_field Sample.eval_repr Sample.repr_str
         (Sample.catalog [] [] [])
         (Sample.field_of
            (Sample.column "payment" "place" "point" (PyStr "YES") PyNone
               PyNone None))
         ["payment_id"] initial_state
       = Ok (1%nat, {| heap := [∅; f]; out := [] |})
       ∧ f !! "type" = Some (PyStr "")
       ∧ field_line
           (Sample.field_of
              (Sample.column "payment" "place" "point" (PyStr "YES") PyNone
                 PyNone None)) f
         = field_line
             (Sample.field_of
                (Sample.column "payment" "place" "point" (PyStr "YES")
                   PyNone PyNone None)) (delete "type" f).
Proof.
  apply (tolerated_type_is_not_printed Sample.eval_repr Sample.repr_str
           (Sample.catalog [] [] [])
           (Sample.field_of
              (Sample.column "payment" "place" "point" (PyStr "YES") PyNone
                 PyNone None))
           ["payment_id"] initial_state ∅);
    reflexivity.
Defined.
